(** * NFO asset verification app: the site-search page and the asset drawer

    A shallow embedding of [app/src/pages/SiteSearch.tsx] (and of
    [uploadPhoto] of [app/src/components/AssetDetail.tsx]).

    - Component state ([useState] cells and [useRef] cells) is one record
      [State]; a [setX(v)] call is a state update, a [setX(prev => ..)] call
      is an update by a function of the live state.
    - An [async] handler is a finite resumption ([Prog]): state updates,
      calls on the realtime client, and [await]ed backend requests whose
      continuation receives the response.  What a handler does before its
      first [await] is the prefix of the resumption above the first
      [Await] node.
    - A handler closes over the state of the render that created it; it is
      a function of that captured state [cs].
    - The backend-as-a-service (tables, object storage, realtime channels)
      is the environment; [serve] is the model of its answers, with an
      oracle [fails] that makes chosen requests answer with an error.
    - Two ways of running: [run] takes a handler to its end, every request
      answered at once; [play] parks handlers at their awaits and lets
      actions and answers come in any order.

    Left out: timers ([setTimeout] that hides the success banner), the DOM
    ([e.target.value = '']), console logging, columns of the asset tables
    that the page never names, and exceptions thrown by the client library
    itself (its failures are the [error] of an answer). *)

From Stdlib Require Import String Ascii List Lia Sorted.
From stdpp Require Import base strings gmap list sorting pretty.

Open Scope string_scope.

(** ** JavaScript values *)

(** [x || ''] on an optional string. *)
Definition orEmpty (o : option string) : string :=
  match o with Some s => s | None => "" end.

(** Truthiness of a string: the empty string is falsy. *)
Definition truthy (s : string) : bool :=
  match s with EmptyString => false | String _ _ => true end.

(** [s || null]. *)
Definition orNull (s : string) : option string :=
  if truthy s then Some s else None.

(** Truthiness of an optional flag ([undefined] and [false] are falsy). *)
Definition flag (o : option bool) : bool :=
  match o with Some b => b | None => false end.

(** White space removed by [String.prototype.trim], for the code units below
    256: TAB, LF, VT, FF, CR, SPACE and NBSP. *)
Definition is_space (c : ascii) : bool :=
  let n := nat_of_ascii c in
  (Nat.leb 9 n && Nat.leb n 13) || Nat.eqb n 32 || Nat.eqb n 160.

Fixpoint trim_start (s : string) : string :=
  match s with
  | String c s' => if is_space c then trim_start s' else s
  | EmptyString => EmptyString
  end.

(** Drops trailing white space: a suffix made only of white space vanishes. *)
Fixpoint trim_end (s : string) : string :=
  match s with
  | String c s' =>
      match trim_end s' with
      | EmptyString => if is_space c then EmptyString else String c EmptyString
      | t => String c t
      end
  | EmptyString => EmptyString
  end.

Definition trim (s : string) : string := trim_end (trim_start s).

(** A string made of white space only (the empty string included). *)
Fixpoint blank (s : string) : bool :=
  match s with
  | String c s' => is_space c && blank s'
  | EmptyString => true
  end.

(** ** JavaScript objects with their key order

    An object used as a record from strings to values.  [Object.entries]
    walks its keys in the order in which they were first assigned; writing
    to a key that the object has keeps the key in its place, writing to a
    new key adds it at the end. *)
Record Obj (V : Type) := mkObj { entries : list (string * V) }.
Arguments mkObj {V} entries.
Arguments entries {V} o.

Fixpoint obj_set {V : Type} (k : string) (v : V) (l : list (string * V))
  : list (string * V) :=
  match l with
  | [] => [(k, v)]
  | kv :: l' =>
      if decide (fst kv = k) then (k, v) :: l' else kv :: obj_set k v l'
  end.

#[global] Instance Obj_lookup {V : Type} : Lookup string V (Obj V) :=
  fun k o =>
    option_map snd (List.find (fun kv => bool_decide (fst kv = k)) (entries o)).

#[global] Instance Obj_insert {V : Type} : Insert string V (Obj V) :=
  fun k v o => mkObj (obj_set k v (entries o)).

#[global] Instance Obj_empty {V : Type} : Empty (Obj V) := mkObj [].

#[global] Instance Obj_singleton {V : Type} : SingletonM string V (Obj V) :=
  fun k v => mkObj [(k, v)].

(** ** Tabs and tables *)

Inductive Tab := Enclosure | RAN_Active | RAN_Passive | MW_Active | MW_Passive.

Definition TABS : list Tab :=
  [Enclosure; RAN_Active; RAN_Passive; MW_Active; MW_Passive].

(** The string a tab is known by (the keys of [tabData] and [tabCounts]). *)
Definition tab_name (t : Tab) : string :=
  match t with
  | Enclosure => "Enclosure"
  | RAN_Active => "RAN-Active"
  | RAN_Passive => "RAN-Passive"
  | MW_Active => "MW-Active"
  | MW_Passive => "MW-Passive"
  end.

(** The tab that a key of [tabData] names. *)
Definition tab_of_name (k : string) : option Tab :=
  List.find (fun t => bool_decide (tab_name t = k)) TABS.

Definition TAB_TABLE_MAP (t : Tab) : string :=
  match t with
  | Enclosure => "enclosure_assets"
  | RAN_Active => "ran_active_assets"
  | RAN_Passive => "ran_passive_assets"
  | MW_Active => "mw_active_assets"
  | MW_Passive => "mw_passive_assets"
  end.

(** ** Rows *)

(** [interface AssetRow]; [category] is the one further column the page
    writes (on insert). *)
Record AssetRow := mkAssetRow {
  id : string;
  site_id : string;
  date_text : option string;
  category : option string;
  equipment_type : option string;
  product_name : option string;
  product_number : option string;
  serial : option string;
  tag : option string;
  status : option string;
  remarks : option string;
}.

(** [interface EditableRow extends AssetRow]: the fetched row, two optional
    flags, and the seven draft fields. *)
Record EditableRow := mkEditableRow {
  base : AssetRow;
  _editing : option bool;
  _saving : option bool;
  _equipment_type : string;
  _product_name : string;
  _product_number : string;
  _serial : string;
  _tag : string;
  _status : string;
  _remarks : string;
}.

(** The object literal both [handleSearch] and [refreshTabData] map over the
    fetched rows. *)
Definition toEditable (row : AssetRow) : EditableRow :=
  {| base := row;
     _editing := None;
     _saving := None;
     _equipment_type := orEmpty (equipment_type row);
     _product_name := orEmpty (product_name row);
     _product_number := orEmpty (product_number row);
     _serial := orEmpty (serial row);
     _tag := orEmpty (tag row);
     _status := orEmpty (status row);
     _remarks := orEmpty (remarks row) |}.

(** ** Photos *)

Inductive PhotoType := serial_photo | tag_photo.

Definition photo_type_name (t : PhotoType) : string :=
  match t with serial_photo => "serial" | tag_photo => "tag" end.

Definition PhotoType_eqb (a b : PhotoType) : bool :=
  match a, b with
  | serial_photo, serial_photo | tag_photo, tag_photo => true
  | _, _ => false
  end.

(** A record of the [asset_photos] table.  The page writes [asset_table],
    [taken_at] and [taken_by]; the drawer writes [public_url]. *)
Record PhotoRec := mkPhotoRec {
  photo_id : string;
  asset_id : string;
  asset_table : option string;
  photo_type : PhotoType;
  storage_path : string;
  public_url : option string;
  taken_at : option string;
  taken_by : option string;
}.

(** [interface AssetPhoto]: a record and its signed URL. *)
Record AssetPhoto := mkAssetPhoto {
  rec : PhotoRec;
  signedUrl : string;
}.

Record File := mkFile { file_name : string; file_content : string }.

(** ** Requests the page sends *)

(** The argument of [.update(..)] in [handleSaveRow]. *)
Record UpdatePayload := mkUpdatePayload {
  u_equipment_type : string;
  u_product_name : string;
  u_product_number : string;
  u_serial : string;
  u_tag : string;
  u_status : string;
  u_remarks : string;
}.

(** The argument of [.insert(..)] in [handleAddNewRow]. *)
Record InsertPayload := mkInsertPayload {
  i_site_id : string;
  i_date_text : string;
  i_category : string;
  i_equipment_type : string;
  i_product_name : string;
  i_product_number : option string;
  i_serial : string;
  i_tag : string;
  i_status : string;
  i_remarks : option string;
}.

(** The argument of [.insert(..)] / [.upsert(..)] on [asset_photos]. *)
Record PhotoPayload := mkPhotoPayload {
  p_asset_id : string;
  p_asset_table : option string;
  p_photo_type : PhotoType;
  p_storage_path : string;
  p_public_url : option string;
  p_taken_at : option string;
  p_taken_by : option string;
}.

Inductive Result (A : Type) : Type :=
| Ok (a : A)
| Err (msg : string).
Arguments Ok {A} a.
Arguments Err {A} msg.

(** One constructor per query the code builds; the index is the type of the
    [{ data, error }] answer. *)
Inductive Req : Type -> Type :=
| SelectAssets (table site : string) : Req (Result (list AssetRow))
| UpdateAsset (table rowId : string) (p : UpdatePayload) : Req (Result unit)
| InsertAsset (table : string) (p : InsertPayload) : Req (Result AssetRow)
| SelectPhotos (tables ids : list string) : Req (Result (list PhotoRec))
| InsertPhoto (p : PhotoPayload) : Req (Result PhotoRec)
| UpsertPhoto (p : PhotoPayload) : Req (Result unit)
| StorageUpload (path : string) (f : File) : Req (Result unit)
| CreateSignedUrl (path : string) (expiry : nat) : Req (Result string)
| SelectProductNumber (name : string) (cat equipment : option string)
    : Req (Result (list (option string)))
| SelectEquipmentTypes (cat : string) : Req (Result (list (option string)))
| SelectProductNames (cat equipment : string)
    : Req (Result (list (option string)))
| SelectTagStatus : Req (Result (list (option string))).

(** A request as it appears in the log of network calls. *)
Inductive NetCall : Type :=
| Sent (R : Type) (r : Req R) : NetCall.
Arguments Sent {R} r.

(** ** The backend service

    Tables, views and the storage bucket, as far as the page reads and
    writes them.  Row and record ids are issued by the database.

    The repository shows one schema of [asset_photos], in its README, with
    the constraint [UNIQUE(asset_id, photo_type)]; the drawer's upsert
    names these two columns as its conflict target.  The search page
    speaks of an existing schema (with [asset_table], [taken_at] and
    [taken_by]) that the repository does not show.  Whether the table
    carries the constraint is therefore a parameter, [photos_unique]. *)

Record CatalogRow := mkCatalogRow {
  c_product_name : string;
  c_category : option string;
  c_equipment_type : option string;
  c_product_number : option string;
}.

Record Backend := mkBackend {
  assets : gmap string (list AssetRow);
  asset_photos : list PhotoRec;
  bucket : gmap string File;
  product_catalog : list CatalogRow;
  v_equipment_types : list (string * option string);
  v_product_names : list (string * string * option string);
  v_tag_status : list (option string);
  next_id : nat;
  photos_unique : bool;
}.

(** [ORDER BY date_text DESC]: text order on the free-text date, the
    database's default of nulls first when descending. *)
Definition date_geb (a b : option string) : bool :=
  match a, b with
  | None, _ => true
  | Some _, None => false
  | Some x, Some y => String.leb y x
  end.

Definition date_desc (r1 r2 : AssetRow) : Prop :=
  date_geb (date_text r1) (date_text r2) = true.

#[global] Instance date_desc_dec : RelDecision date_desc.
Proof. intros r1 r2. unfold date_desc. apply _. Defined.

(** [.from(table).select('*').eq('site_id', site).order('date_text',
    { ascending: false })]. *)
Definition select_assets (b : Backend) (table site : string) : list AssetRow :=
  merge_sort date_desc
    (filter (fun r => site_id r = site) (default [] (assets b !! table))).

(** [.update(p).eq('id', rowId)]: the seven columns of the payload are
    written on the rows with that id, the other columns are kept. *)
Definition apply_update (rowId : string) (p : UpdatePayload) (r : AssetRow)
  : AssetRow :=
  if decide (id r = rowId) then
    {| id := id r; site_id := site_id r; date_text := date_text r;
       category := category r;
       equipment_type := Some (u_equipment_type p);
       product_name := Some (u_product_name p);
       product_number := Some (u_product_number p);
       serial := Some (u_serial p);
       tag := Some (u_tag p);
       status := Some (u_status p);
       remarks := Some (u_remarks p) |}
  else r.

Definition update_asset (b : Backend) (table rowId : string)
    (p : UpdatePayload) : Backend :=
  {| assets := alter (map (apply_update rowId p)) table (assets b);
     asset_photos := asset_photos b; bucket := bucket b;
     product_catalog := product_catalog b;
     v_equipment_types := v_equipment_types b;
     v_product_names := v_product_names b;
     v_tag_status := v_tag_status b; next_id := next_id b;
     photos_unique := photos_unique b |}.

Definition fresh_id (b : Backend) : string := "id-" ++ pretty (next_id b).

(** [.insert(p).select().single()]: the stored row, with its new id. *)
Definition inserted_row (b : Backend) (p : InsertPayload) : AssetRow :=
  {| id := fresh_id b; site_id := i_site_id p;
     date_text := Some (i_date_text p);
     category := Some (i_category p);
     equipment_type := Some (i_equipment_type p);
     product_name := Some (i_product_name p);
     product_number := i_product_number p;
     serial := Some (i_serial p);
     tag := Some (i_tag p);
     status := Some (i_status p);
     remarks := i_remarks p |}.

Definition insert_asset (b : Backend) (table : string) (p : InsertPayload)
  : Backend :=
  {| assets :=
       <[table := (default [] (assets b !! table) ++ [inserted_row b p])%list]>
         (assets b);
     asset_photos := asset_photos b; bucket := bucket b;
     product_catalog := product_catalog b;
     v_equipment_types := v_equipment_types b;
     v_product_names := v_product_names b;
     v_tag_status := v_tag_status b; next_id := S (next_id b);
     photos_unique := photos_unique b |}.

(** [.select('*').in('asset_table', tables).in('asset_id', ids)]. *)
Definition photo_selected (tables ids : list string) (p : PhotoRec) : bool :=
  match asset_table p with
  | Some t => bool_decide (t ∈ tables) && bool_decide (asset_id p ∈ ids)
  | None => false
  end.

Definition select_photos (b : Backend) (tables ids : list string)
  : list PhotoRec :=
  List.filter (photo_selected tables ids) (asset_photos b).

Definition inserted_photo (b : Backend) (p : PhotoPayload) : PhotoRec :=
  {| photo_id := fresh_id b; asset_id := p_asset_id p;
     asset_table := p_asset_table p; photo_type := p_photo_type p;
     storage_path := p_storage_path p; public_url := p_public_url p;
     taken_at := p_taken_at p; taken_by := p_taken_by p |}.

Definition set_photos (b : Backend) (l : list PhotoRec) (n : nat) : Backend :=
  {| assets := assets b; asset_photos := l; bucket := bucket b;
     product_catalog := product_catalog b;
     v_equipment_types := v_equipment_types b;
     v_product_names := v_product_names b;
     v_tag_status := v_tag_status b; next_id := n;
     photos_unique := photos_unique b |}.

(** The table with the record of [p] added. *)
Definition add_photo (b : Backend) (p : PhotoPayload) : Backend :=
  set_photos b (asset_photos b ++ [inserted_photo b p])%list (S (next_id b)).

(** A record of the asset and photo type of [p]: what the constraint
    [UNIQUE(asset_id, photo_type)] forbids to exist twice, and the conflict
    target of [.upsert(p, { onConflict: 'asset_id,photo_type' })]. *)
Definition conflicts (p : PhotoPayload) (r : PhotoRec) : bool :=
  bool_decide (asset_id r = p_asset_id p)
  && PhotoType_eqb (photo_type r) (p_photo_type p).

(** [.insert(p)] on [asset_photos]: one more record, nothing replaced.  On
    a table with the constraint the database rejects the insert when the
    asset has a record of that type. *)
Definition insert_photo (b : Backend) (p : PhotoPayload)
  : Result PhotoRec * Backend :=
  if photos_unique b && existsb (conflicts p) (asset_photos b)
  then (Err "duplicate key value violates unique constraint asset_photos_asset_id_photo_type_key",
        b)
  else (Ok (inserted_photo b p), add_photo b p).

(** On conflict the columns of the payload overwrite those of the record. *)
Definition overwrite_photo (p : PhotoPayload) (r : PhotoRec) : PhotoRec :=
  if conflicts p r then
    {| photo_id := photo_id r; asset_id := asset_id r;
       asset_table := asset_table r; photo_type := photo_type r;
       storage_path := p_storage_path p; public_url := p_public_url p;
       taken_at := taken_at r; taken_by := taken_by r |}
  else r.

(** [.upsert(p, { onConflict: 'asset_id,photo_type' })]: the conflict
    target has to be a uniqueness constraint of the table, or the database
    rejects the statement.  With the constraint, the record of that asset
    and type takes the columns of the payload, and if there is none the
    payload is inserted. *)
Definition upsert_photo (b : Backend) (p : PhotoPayload)
  : Result unit * Backend :=
  if photos_unique b then
    if existsb (conflicts p) (asset_photos b)
    then (Ok tt,
          set_photos b (map (overwrite_photo p) (asset_photos b)) (next_id b))
    else (Ok tt, add_photo b p)
  else (Err "there is no unique or exclusion constraint matching the ON CONFLICT specification",
        b).

(** The photo records of an asset id and a photo type, whatever table the
    asset is in: the pair that the constraint is about. *)
Definition records_of_pair (b : Backend) (assetId : string) (t : PhotoType)
  : list PhotoRec :=
  List.filter
    (fun r => bool_decide (asset_id r = assetId)
              && PhotoType_eqb (photo_type r) t)
    (asset_photos b).

(** A table with the constraint holds at most one record for an asset and
    a photo type. *)
Definition photos_consistent (b : Backend) : Prop :=
  photos_unique b = true ->
  forall assetId t, length (records_of_pair b assetId t) <= 1.

(** [storage.from('asset-photos').upload(path, file, { upsert: true })]:
    the object at [path] is created or replaced. *)
Definition storage_upload (b : Backend) (path : string) (f : File) : Backend :=
  {| assets := assets b; asset_photos := asset_photos b;
     bucket := <[path := f]> (bucket b);
     product_catalog := product_catalog b;
     v_equipment_types := v_equipment_types b;
     v_product_names := v_product_names b;
     v_tag_status := v_tag_status b; next_id := next_id b;
     photos_unique := photos_unique b |}.

(** A signed URL is issued for an object that exists; the link itself is
    opaque to the page. *)
Definition signed_url (path : string) (expiry : nat) : string :=
  "signed:" ++ path ++ "?expires_in=" ++ pretty expiry.

Definition opt_matches (want : option string) (have : option string) : bool :=
  match want with
  | None => true
  | Some w => bool_decide (have = Some w)
  end.

(** [.from('product_catalog').select('product_number').eq('product_name',
    name).limit(1)], with the optional [.eq('category', ..)] and
    [.eq('equipment_type', ..)]. *)
Definition select_product_number (b : Backend) (name : string)
    (cat equipment : option string) : list (option string) :=
  take 1
    (map c_product_number
       (List.filter
          (fun c => bool_decide (c_product_name c = name)
                    && opt_matches cat (c_category c)
                    && opt_matches equipment (c_equipment_type c))
          (product_catalog b))).

Definition select_equipment_types (b : Backend) (cat : string)
  : list (option string) :=
  map snd (List.filter (fun x => bool_decide (fst x = cat))
             (v_equipment_types b)).

Definition select_product_names (b : Backend) (cat equipment : string)
  : list (option string) :=
  map snd
    (List.filter
       (fun x => bool_decide (fst (fst x) = cat)
                 && bool_decide (snd (fst x) = equipment))
       (v_product_names b)).

(** Which requests are answered with an error, and with which message. *)
Definition Oracle : Type := forall R : Type, Req R -> option string.

(** The answer of the backend to a request, and the backend afterwards.
    [fails] names the requests that are answered with an error (and then
    change nothing). *)
Definition serve (fails : Oracle)
    {R : Type} (r : Req R) (b : Backend) : R * Backend :=
  let failure := fails R r in
  match r in Req T return T * Backend with
  | SelectAssets table site =>
      match failure with
      | Some m => (Err m, b)
      | None => (Ok (select_assets b table site), b)
      end
  | UpdateAsset table rowId p =>
      match failure with
      | Some m => (Err m, b)
      | None => (Ok tt, update_asset b table rowId p)
      end
  | InsertAsset table p =>
      match failure with
      | Some m => (Err m, b)
      | None => (Ok (inserted_row b p), insert_asset b table p)
      end
  | SelectPhotos tables ids =>
      match failure with
      | Some m => (Err m, b)
      | None => (Ok (select_photos b tables ids), b)
      end
  | InsertPhoto p =>
      match failure with
      | Some m => (Err m, b)
      | None => insert_photo b p
      end
  | UpsertPhoto p =>
      match failure with
      | Some m => (Err m, b)
      | None => upsert_photo b p
      end
  | StorageUpload path f =>
      match failure with
      | Some m => (Err m, b)
      | None => (Ok tt, storage_upload b path f)
      end
  | CreateSignedUrl path expiry =>
      match failure with
      | Some m => (Err m, b)
      | None =>
          match bucket b !! path with
          | Some _ => (Ok (signed_url path expiry), b)
          | None => (Err "Object not found", b)
          end
      end
  | SelectProductNumber name cat equipment =>
      match failure with
      | Some m => (Err m, b)
      | None => (Ok (select_product_number b name cat equipment), b)
      end
  | SelectEquipmentTypes cat =>
      match failure with
      | Some m => (Err m, b)
      | None => (Ok (select_equipment_types b cat), b)
      end
  | SelectProductNames cat equipment =>
      match failure with
      | Some m => (Err m, b)
      | None => (Ok (select_product_names b cat equipment), b)
      end
  | SelectTagStatus =>
      match failure with
      | Some m => (Err m, b)
      | None => (Ok (v_tag_status b), b)
      end
  end.

(** ** Realtime channels *)

(** What a listener does when it fires: the two closures that
    [setupRealtimeSubscriptions] registers. *)
Inductive Callback :=
| CbRefreshTab (tab : Tab) (siteIdParam : string)
| CbReloadPhotos (assets : list (string * string)).

Inductive PgEvent := AnyEvent | InsertEvent | UpdateEvent | DeleteEvent.

(** The argument of [channel.on('postgres_changes', { event, schema, table,
    filter }, callback)]; [l_filter = Some s] is the filter
    [site_id=eq.s]. *)
Record Listener := mkListener {
  l_event : PgEvent;
  l_table : string;
  l_filter : option string;
  l_callback : Callback;
}.

Record Channel := mkChannel {
  chan_id : nat;
  chan_name : string;
  chan_listeners : list Listener;
}.

(** The new-row form. *)
Record NewRow := mkNewRow {
  nr_equipment_type : string;
  nr_product_name : string;
  nr_product_number : string;
  nr_serial : string;
  nr_tag : string;
  nr_status : string;
  nr_remarks : string;
}.

(** ** Component state *)

Record State := mkState {
  searchQuery : string;
  siteId : string;
  activeTab : Tab;
  tabData : Obj (list EditableRow);
  tabCounts : gmap string nat;
  photos : gmap string (list AssetPhoto);
  loading : bool;
  error : option string;
  hasSearched : bool;
  uploadingPhoto : option string;
  equipmentTypes : gmap string (list string);
  productNames : gmap string (list string);
  tagStatuses : list string;
  loadingDropdowns : option string;
  showAddForm : bool;
  newRowSaving : bool;
  successMessage : option string;
  newRow : NewRow;
  newRowProductNames : list string;
  newAssetId : option string;
  newAssetPhotos : list AssetPhoto;
  uploadingNewPhoto : option PhotoType;
  channelRef : option Channel;
  photoChannelRef : option Channel;
  user : option string;
}.

(** The [setX] functions of the [useState] cells (and the assignments to
    the [.current] of the two ref cells).  Each takes the function form
    [setX(prev => ..)]; [setX(v)] is [setX (fun _ => v)]. *)
Definition setSearchQuery (f : string -> string) (s : State) : State :=
  mkState (f (searchQuery s)) (siteId s) (activeTab s) (tabData s)
    (tabCounts s) (photos s) (loading s) (error s) (hasSearched s)
    (uploadingPhoto s) (equipmentTypes s) (productNames s) (tagStatuses s)
    (loadingDropdowns s) (showAddForm s) (newRowSaving s) (successMessage s)
    (newRow s) (newRowProductNames s) (newAssetId s) (newAssetPhotos s)
    (uploadingNewPhoto s) (channelRef s) (photoChannelRef s) (user s).

Definition setSiteId (f : string -> string) (s : State) : State :=
  mkState (searchQuery s) (f (siteId s)) (activeTab s) (tabData s)
    (tabCounts s) (photos s) (loading s) (error s) (hasSearched s)
    (uploadingPhoto s) (equipmentTypes s) (productNames s) (tagStatuses s)
    (loadingDropdowns s) (showAddForm s) (newRowSaving s) (successMessage s)
    (newRow s) (newRowProductNames s) (newAssetId s) (newAssetPhotos s)
    (uploadingNewPhoto s) (channelRef s) (photoChannelRef s) (user s).

Definition setActiveTab (f : Tab -> Tab) (s : State) : State :=
  mkState (searchQuery s) (siteId s) (f (activeTab s)) (tabData s)
    (tabCounts s) (photos s) (loading s) (error s) (hasSearched s)
    (uploadingPhoto s) (equipmentTypes s) (productNames s) (tagStatuses s)
    (loadingDropdowns s) (showAddForm s) (newRowSaving s) (successMessage s)
    (newRow s) (newRowProductNames s) (newAssetId s) (newAssetPhotos s)
    (uploadingNewPhoto s) (channelRef s) (photoChannelRef s) (user s).

Definition setTabData (f : Obj (list EditableRow) -> Obj (list EditableRow)) (s : State) : State :=
  mkState (searchQuery s) (siteId s) (activeTab s) (f (tabData s))
    (tabCounts s) (photos s) (loading s) (error s) (hasSearched s)
    (uploadingPhoto s) (equipmentTypes s) (productNames s) (tagStatuses s)
    (loadingDropdowns s) (showAddForm s) (newRowSaving s) (successMessage s)
    (newRow s) (newRowProductNames s) (newAssetId s) (newAssetPhotos s)
    (uploadingNewPhoto s) (channelRef s) (photoChannelRef s) (user s).

Definition setTabCounts (f : gmap string nat -> gmap string nat) (s : State) : State :=
  mkState (searchQuery s) (siteId s) (activeTab s) (tabData s)
    (f (tabCounts s)) (photos s) (loading s) (error s) (hasSearched s)
    (uploadingPhoto s) (equipmentTypes s) (productNames s) (tagStatuses s)
    (loadingDropdowns s) (showAddForm s) (newRowSaving s) (successMessage s)
    (newRow s) (newRowProductNames s) (newAssetId s) (newAssetPhotos s)
    (uploadingNewPhoto s) (channelRef s) (photoChannelRef s) (user s).

Definition setPhotos (f : gmap string (list AssetPhoto) -> gmap string (list AssetPhoto)) (s : State) : State :=
  mkState (searchQuery s) (siteId s) (activeTab s) (tabData s) (tabCounts s)
    (f (photos s)) (loading s) (error s) (hasSearched s) (uploadingPhoto s)
    (equipmentTypes s) (productNames s) (tagStatuses s) (loadingDropdowns s)
    (showAddForm s) (newRowSaving s) (successMessage s) (newRow s)
    (newRowProductNames s) (newAssetId s) (newAssetPhotos s)
    (uploadingNewPhoto s) (channelRef s) (photoChannelRef s) (user s).

Definition setLoading (f : bool -> bool) (s : State) : State :=
  mkState (searchQuery s) (siteId s) (activeTab s) (tabData s) (tabCounts s)
    (photos s) (f (loading s)) (error s) (hasSearched s) (uploadingPhoto s)
    (equipmentTypes s) (productNames s) (tagStatuses s) (loadingDropdowns s)
    (showAddForm s) (newRowSaving s) (successMessage s) (newRow s)
    (newRowProductNames s) (newAssetId s) (newAssetPhotos s)
    (uploadingNewPhoto s) (channelRef s) (photoChannelRef s) (user s).

Definition setError (f : option string -> option string) (s : State) : State :=
  mkState (searchQuery s) (siteId s) (activeTab s) (tabData s) (tabCounts s)
    (photos s) (loading s) (f (error s)) (hasSearched s) (uploadingPhoto s)
    (equipmentTypes s) (productNames s) (tagStatuses s) (loadingDropdowns s)
    (showAddForm s) (newRowSaving s) (successMessage s) (newRow s)
    (newRowProductNames s) (newAssetId s) (newAssetPhotos s)
    (uploadingNewPhoto s) (channelRef s) (photoChannelRef s) (user s).

Definition setHasSearched (f : bool -> bool) (s : State) : State :=
  mkState (searchQuery s) (siteId s) (activeTab s) (tabData s) (tabCounts s)
    (photos s) (loading s) (error s) (f (hasSearched s)) (uploadingPhoto s)
    (equipmentTypes s) (productNames s) (tagStatuses s) (loadingDropdowns s)
    (showAddForm s) (newRowSaving s) (successMessage s) (newRow s)
    (newRowProductNames s) (newAssetId s) (newAssetPhotos s)
    (uploadingNewPhoto s) (channelRef s) (photoChannelRef s) (user s).

Definition setUploadingPhoto (f : option string -> option string) (s : State) : State :=
  mkState (searchQuery s) (siteId s) (activeTab s) (tabData s) (tabCounts s)
    (photos s) (loading s) (error s) (hasSearched s) (f (uploadingPhoto s))
    (equipmentTypes s) (productNames s) (tagStatuses s) (loadingDropdowns s)
    (showAddForm s) (newRowSaving s) (successMessage s) (newRow s)
    (newRowProductNames s) (newAssetId s) (newAssetPhotos s)
    (uploadingNewPhoto s) (channelRef s) (photoChannelRef s) (user s).

Definition setEquipmentTypes (f : gmap string (list string) -> gmap string (list string)) (s : State) : State :=
  mkState (searchQuery s) (siteId s) (activeTab s) (tabData s) (tabCounts s)
    (photos s) (loading s) (error s) (hasSearched s) (uploadingPhoto s)
    (f (equipmentTypes s)) (productNames s) (tagStatuses s)
    (loadingDropdowns s) (showAddForm s) (newRowSaving s) (successMessage s)
    (newRow s) (newRowProductNames s) (newAssetId s) (newAssetPhotos s)
    (uploadingNewPhoto s) (channelRef s) (photoChannelRef s) (user s).

Definition setProductNames (f : gmap string (list string) -> gmap string (list string)) (s : State) : State :=
  mkState (searchQuery s) (siteId s) (activeTab s) (tabData s) (tabCounts s)
    (photos s) (loading s) (error s) (hasSearched s) (uploadingPhoto s)
    (equipmentTypes s) (f (productNames s)) (tagStatuses s)
    (loadingDropdowns s) (showAddForm s) (newRowSaving s) (successMessage s)
    (newRow s) (newRowProductNames s) (newAssetId s) (newAssetPhotos s)
    (uploadingNewPhoto s) (channelRef s) (photoChannelRef s) (user s).

Definition setTagStatuses (f : list string -> list string) (s : State) : State :=
  mkState (searchQuery s) (siteId s) (activeTab s) (tabData s) (tabCounts s)
    (photos s) (loading s) (error s) (hasSearched s) (uploadingPhoto s)
    (equipmentTypes s) (productNames s) (f (tagStatuses s))
    (loadingDropdowns s) (showAddForm s) (newRowSaving s) (successMessage s)
    (newRow s) (newRowProductNames s) (newAssetId s) (newAssetPhotos s)
    (uploadingNewPhoto s) (channelRef s) (photoChannelRef s) (user s).

Definition setLoadingDropdowns (f : option string -> option string) (s : State) : State :=
  mkState (searchQuery s) (siteId s) (activeTab s) (tabData s) (tabCounts s)
    (photos s) (loading s) (error s) (hasSearched s) (uploadingPhoto s)
    (equipmentTypes s) (productNames s) (tagStatuses s)
    (f (loadingDropdowns s)) (showAddForm s) (newRowSaving s)
    (successMessage s) (newRow s) (newRowProductNames s) (newAssetId s)
    (newAssetPhotos s) (uploadingNewPhoto s) (channelRef s)
    (photoChannelRef s) (user s).

Definition setShowAddForm (f : bool -> bool) (s : State) : State :=
  mkState (searchQuery s) (siteId s) (activeTab s) (tabData s) (tabCounts s)
    (photos s) (loading s) (error s) (hasSearched s) (uploadingPhoto s)
    (equipmentTypes s) (productNames s) (tagStatuses s) (loadingDropdowns s)
    (f (showAddForm s)) (newRowSaving s) (successMessage s) (newRow s)
    (newRowProductNames s) (newAssetId s) (newAssetPhotos s)
    (uploadingNewPhoto s) (channelRef s) (photoChannelRef s) (user s).

Definition setNewRowSaving (f : bool -> bool) (s : State) : State :=
  mkState (searchQuery s) (siteId s) (activeTab s) (tabData s) (tabCounts s)
    (photos s) (loading s) (error s) (hasSearched s) (uploadingPhoto s)
    (equipmentTypes s) (productNames s) (tagStatuses s) (loadingDropdowns s)
    (showAddForm s) (f (newRowSaving s)) (successMessage s) (newRow s)
    (newRowProductNames s) (newAssetId s) (newAssetPhotos s)
    (uploadingNewPhoto s) (channelRef s) (photoChannelRef s) (user s).

Definition setSuccessMessage (f : option string -> option string) (s : State) : State :=
  mkState (searchQuery s) (siteId s) (activeTab s) (tabData s) (tabCounts s)
    (photos s) (loading s) (error s) (hasSearched s) (uploadingPhoto s)
    (equipmentTypes s) (productNames s) (tagStatuses s) (loadingDropdowns s)
    (showAddForm s) (newRowSaving s) (f (successMessage s)) (newRow s)
    (newRowProductNames s) (newAssetId s) (newAssetPhotos s)
    (uploadingNewPhoto s) (channelRef s) (photoChannelRef s) (user s).

Definition setNewRow (f : NewRow -> NewRow) (s : State) : State :=
  mkState (searchQuery s) (siteId s) (activeTab s) (tabData s) (tabCounts s)
    (photos s) (loading s) (error s) (hasSearched s) (uploadingPhoto s)
    (equipmentTypes s) (productNames s) (tagStatuses s) (loadingDropdowns s)
    (showAddForm s) (newRowSaving s) (successMessage s) (f (newRow s))
    (newRowProductNames s) (newAssetId s) (newAssetPhotos s)
    (uploadingNewPhoto s) (channelRef s) (photoChannelRef s) (user s).

Definition setNewRowProductNames (f : list string -> list string) (s : State) : State :=
  mkState (searchQuery s) (siteId s) (activeTab s) (tabData s) (tabCounts s)
    (photos s) (loading s) (error s) (hasSearched s) (uploadingPhoto s)
    (equipmentTypes s) (productNames s) (tagStatuses s) (loadingDropdowns s)
    (showAddForm s) (newRowSaving s) (successMessage s) (newRow s)
    (f (newRowProductNames s)) (newAssetId s) (newAssetPhotos s)
    (uploadingNewPhoto s) (channelRef s) (photoChannelRef s) (user s).

Definition setNewAssetId (f : option string -> option string) (s : State) : State :=
  mkState (searchQuery s) (siteId s) (activeTab s) (tabData s) (tabCounts s)
    (photos s) (loading s) (error s) (hasSearched s) (uploadingPhoto s)
    (equipmentTypes s) (productNames s) (tagStatuses s) (loadingDropdowns s)
    (showAddForm s) (newRowSaving s) (successMessage s) (newRow s)
    (newRowProductNames s) (f (newAssetId s)) (newAssetPhotos s)
    (uploadingNewPhoto s) (channelRef s) (photoChannelRef s) (user s).

Definition setNewAssetPhotos (f : list AssetPhoto -> list AssetPhoto) (s : State) : State :=
  mkState (searchQuery s) (siteId s) (activeTab s) (tabData s) (tabCounts s)
    (photos s) (loading s) (error s) (hasSearched s) (uploadingPhoto s)
    (equipmentTypes s) (productNames s) (tagStatuses s) (loadingDropdowns s)
    (showAddForm s) (newRowSaving s) (successMessage s) (newRow s)
    (newRowProductNames s) (newAssetId s) (f (newAssetPhotos s))
    (uploadingNewPhoto s) (channelRef s) (photoChannelRef s) (user s).

Definition setUploadingNewPhoto (f : option PhotoType -> option PhotoType) (s : State) : State :=
  mkState (searchQuery s) (siteId s) (activeTab s) (tabData s) (tabCounts s)
    (photos s) (loading s) (error s) (hasSearched s) (uploadingPhoto s)
    (equipmentTypes s) (productNames s) (tagStatuses s) (loadingDropdowns s)
    (showAddForm s) (newRowSaving s) (successMessage s) (newRow s)
    (newRowProductNames s) (newAssetId s) (newAssetPhotos s)
    (f (uploadingNewPhoto s)) (channelRef s) (photoChannelRef s) (user s).

Definition set_channelRef (f : option Channel -> option Channel) (s : State) : State :=
  mkState (searchQuery s) (siteId s) (activeTab s) (tabData s) (tabCounts s)
    (photos s) (loading s) (error s) (hasSearched s) (uploadingPhoto s)
    (equipmentTypes s) (productNames s) (tagStatuses s) (loadingDropdowns s)
    (showAddForm s) (newRowSaving s) (successMessage s) (newRow s)
    (newRowProductNames s) (newAssetId s) (newAssetPhotos s)
    (uploadingNewPhoto s) (f (channelRef s)) (photoChannelRef s) (user s).

Definition set_photoChannelRef (f : option Channel -> option Channel) (s : State) : State :=
  mkState (searchQuery s) (siteId s) (activeTab s) (tabData s) (tabCounts s)
    (photos s) (loading s) (error s) (hasSearched s) (uploadingPhoto s)
    (equipmentTypes s) (productNames s) (tagStatuses s) (loadingDropdowns s)
    (showAddForm s) (newRowSaving s) (successMessage s) (newRow s)
    (newRowProductNames s) (newAssetId s) (newAssetPhotos s)
    (uploadingNewPhoto s) (channelRef s) (f (photoChannelRef s)) (user s).
(** ** The world outside the component *)

(** The backend and the channels the realtime client holds open. *)
Record World := mkWorld {
  backend : Backend;
  active : list Channel;
  next_chan : nat;
}.

Definition with_backend (b : Backend) (w : World) : World :=
  {| backend := b; active := active w; next_chan := next_chan w |}.

(** [supabase.removeChannel(c)]; the channel is taken to be closed at once. *)
Definition remove_channel (c : Channel) (w : World) : World :=
  {| backend := backend w;
     active := List.filter (fun c' => negb (Nat.eqb (chan_id c') (chan_id c)))
                 (active w);
     next_chan := next_chan w |}.

(** [supabase.channel(name).on(..)...subscribe(..)]: a new channel object,
    joined. *)
Definition open_channel (name : string) (ls : list Listener) (w : World)
  : Channel * World :=
  let c := {| chan_id := next_chan w; chan_name := name;
              chan_listeners := ls |} in
  (c, {| backend := backend w; active := (active w ++ [c])%list;
         next_chan := S (next_chan w) |}).

(** ** Handlers as resumptions *)

(** A promise that sends one request and turns the answer into its value
    or its rejection: an [async] function with one [await] and no other
    effect, as the functions mapped under [Promise.all] are. *)
Definition Promise (R B : Type) : Type := (Req R * (R -> Result B))%type.

Inductive Prog (A : Type) : Type :=
| Ret (a : A)
| Throw (msg : string)
| Upd (f : State -> State) (k : Prog A)
| Get (k : State -> Prog A)
| Await (R : Type) (r : Req R) (k : R -> Prog A)
| RemoveChannel (c : Channel) (k : Prog A)
| Subscribe (name : string) (ls : list Listener) (k : Channel -> Prog A)
| AwaitAll (R B : Type) (ps : list (Promise R B))
    (k : Result (list B) -> Prog A).
Arguments Ret {A} a.
Arguments Throw {A} msg.
Arguments Upd {A} f k.
Arguments Get {A} k.
Arguments Await {A R} r k.
Arguments RemoveChannel {A} c k.
Arguments Subscribe {A} name ls k.
Arguments AwaitAll {A R B} ps k.

Fixpoint bind {A B : Type} (p : Prog A) (f : A -> Prog B) : Prog B :=
  match p with
  | Ret a => f a
  | Throw m => Throw m
  | Upd g k => Upd g (bind k f)
  | Get k => Get (fun s => bind (k s) f)
  | Await r k => Await r (fun x => bind (k x) f)
  | RemoveChannel c k => RemoveChannel c (bind k f)
  | Subscribe name ls k => Subscribe name ls (fun c => bind (k c) f)
  | AwaitAll ps k => AwaitAll ps (fun x => bind (k x) f)
  end.

#[global] Instance Prog_ret : MRet Prog := @Ret.
#[global] Instance Prog_bind : MBind Prog := fun A B f p => bind p f.

(** [try { p } catch (err) { h(err.message) }]. *)
Fixpoint try_catch {A : Type} (p : Prog A) (h : string -> Prog A) : Prog A :=
  match p with
  | Ret a => Ret a
  | Throw m => h m
  | Upd g k => Upd g (try_catch k h)
  | Get k => Get (fun s => try_catch (k s) h)
  | Await r k => Await r (fun x => try_catch (k x) h)
  | RemoveChannel c k => RemoveChannel c (try_catch k h)
  | Subscribe name ls k => Subscribe name ls (fun c => try_catch (k c) h)
  | AwaitAll ps k => AwaitAll ps (fun x => try_catch (k x) h)
  end.

(** [try { p } finally { q }]. *)
Fixpoint try_finally {A : Type} (p : Prog A) (q : Prog unit) : Prog A :=
  match p with
  | Ret a => bind q (fun _ => Ret a)
  | Throw m => bind q (fun _ => Throw m)
  | Upd g k => Upd g (try_finally k q)
  | Get k => Get (fun s => try_finally (k s) q)
  | Await r k => Await r (fun x => try_finally (k x) q)
  | RemoveChannel c k => RemoveChannel c (try_finally k q)
  | Subscribe name ls k => Subscribe name ls (fun c => try_finally (k c) q)
  | AwaitAll ps k => AwaitAll ps (fun x => try_finally (k x) q)
  end.

(** The settled promise of [p]: its value or its rejection. *)
Definition settle {A : Type} (p : Prog A) : Prog (Result A) :=
  try_catch (bind p (fun a => Ret (Ok a))) (fun m => Ret (Err m)).

Definition upd (f : State -> State) : Prog unit := Upd f (Ret tt).
Definition await {R : Type} (r : Req R) : Prog R := Await r Ret.

(** [await x] where [x] answers [{ data, error }] and the code goes on with
    [if (error) throw error]. *)
Definition await_or_throw {A : Type} (r : Req (Result A)) : Prog A :=
  Await r (fun resp =>
    match resp with Ok a => Ret a | Err m => Throw m end).

(** What [Promise.all] makes of promises that settled in their order: the
    first rejection, otherwise the values in order. *)
Fixpoint join {A : Type} (rs : list (Result A)) : Result (list A) :=
  match rs with
  | [] => Ok []
  | Err m :: _ => Err m
  | Ok a :: rs' =>
      match join rs' with
      | Ok l => Ok (a :: l)
      | Err m => Err m
      end
  end.

(** [await Promise.all(ps)]: the requests of all promises are sent at
    once; the join rejects with the first rejection to arrive, otherwise it
    yields the values in the order of [ps]. *)
Definition promise_all {R B : Type} (ps : list (Promise R B)) : Prog (list B) :=
  AwaitAll ps (fun r => match r with Ok l => Ret l | Err m => Throw m end).

(** ** Running a handler *)

Record Outcome (A : Type) := mkOutcome {
  out : Result A;
  st : State;
  world : World;
  calls : list NetCall;
}.
Arguments mkOutcome {A} out st world calls.
Arguments out {A} o.
Arguments st {A} o.
Arguments world {A} o.
Arguments calls {A} o.

Definition sent {A R : Type} (r : Req R) (o : Outcome A) : Outcome A :=
  mkOutcome (out o) (st o) (world o) (Sent r :: calls o).

(** The requests of a [Promise.all], answered in the order in which they
    were sent: what each promise settles to, and the backend afterwards. *)
Fixpoint serve_all (fails : Oracle) {R B : Type} (ps : list (Promise R B))
    (b : Backend) : list (Result B) * Backend :=
  match ps with
  | [] => ([], b)
  | p :: ps' =>
      let rb := serve fails (fst p) b in
      let rest := serve_all fails ps' (snd rb) in
      (snd p (fst rb) :: fst rest, snd rest)
  end.

(** The handler run to its end: every request is answered by the backend
    as [serve] says, at once and, for the requests of a [Promise.all], in
    the order in which they were sent.  [out] is the value, or the message
    of the exception that left the handler. *)
Fixpoint run (fails : Oracle) {A : Type}
    (p : Prog A) (s : State) (w : World) : Outcome A :=
  match p with
  | Ret a => mkOutcome (Ok a) s w []
  | Throw m => mkOutcome (Err m) s w []
  | Upd f k => run fails k (f s) w
  | Get k => run fails (k s) s w
  | Await r k =>
      let rb := serve fails r (backend w) in
      sent r (run fails (k (fst rb)) s (with_backend (snd rb) w))
  | RemoveChannel c k => run fails k s (remove_channel c w)
  | Subscribe name ls k =>
      let cw := open_channel name ls w in
      run fails (k (fst cw)) s (snd cw)
  | AwaitAll ps k =>
      let rb := serve_all fails ps (backend w) in
      let o := run fails (k (join (fst rb))) s (with_backend (snd rb) w) in
      mkOutcome (out o) (st o) (world o)
        (map (fun p => Sent (fst p)) ps ++ calls o)%list
  end.

(** The part of a handler that runs before its first [await]: the state and
    the channels at the moment the first request is in flight (or at the end,
    for a handler that awaits nothing). *)
Fixpoint before_await {A : Type} (p : Prog A) (s : State) (w : World)
  : State * World :=
  match p with
  | Ret _ | Throw _ | Await _ _ => (s, w)
  | Upd f k => before_await k (f s) w
  | Get k => before_await (k s) s w
  | RemoveChannel c k => before_await k s (remove_channel c w)
  | Subscribe name ls k =>
      let cw := open_channel name ls w in
      before_await (k (fst cw)) s (snd cw)
  | AwaitAll ps k =>
      match ps with
      | [] => before_await (k (Ok [])) s w
      | _ => (s, w)
      end
  end.

(** No request fails. *)
Definition reliable : Oracle := fun _ _ => None.

(** ** The handlers of [SiteSearch] *)

Definition const_ {A : Type} (a : A) : A -> A := fun _ => a.

(** [{ ...prev, [tab]: prev[tab]?.map(f) || [] }]. *)
Definition map_tab (tab : Tab) (f : EditableRow -> EditableRow)
    (prev : Obj (list EditableRow)) : Obj (list EditableRow) :=
  <[tab_name tab :=
      match prev !! tab_name tab with
      | Some rows => map f rows
      | None => []
      end]> prev.

(** [row.id === rowId ? g(row) : row]. *)
Definition on_row (rowId : string) (g : EditableRow -> EditableRow)
    (row : EditableRow) : EditableRow :=
  if decide (id (base row) = rowId) then g row else row.

(** The draft keys a caller of [handleFieldChange] can name. *)
Inductive DraftField :=
| F_equipment_type | F_product_name | F_product_number
| F_serial | F_tag | F_status | F_remarks.

Definition draft (f : DraftField) (r : EditableRow) : string :=
  match f with
  | F_equipment_type => _equipment_type r
  | F_product_name => _product_name r
  | F_product_number => _product_number r
  | F_serial => _serial r
  | F_tag => _tag r
  | F_status => _status r
  | F_remarks => _remarks r
  end.

(** [{ ...row, [field]: value }]. *)
Definition set_draft (f : DraftField) (v : string) (r : EditableRow)
  : EditableRow :=
  match f with
  | F_equipment_type =>
      mkEditableRow (base r) (_editing r) (_saving r) v (_product_name r)
        (_product_number r) (_serial r) (_tag r) (_status r) (_remarks r)
  | F_product_name =>
      mkEditableRow (base r) (_editing r) (_saving r) (_equipment_type r) v
        (_product_number r) (_serial r) (_tag r) (_status r) (_remarks r)
  | F_product_number =>
      mkEditableRow (base r) (_editing r) (_saving r) (_equipment_type r)
        (_product_name r) v (_serial r) (_tag r) (_status r) (_remarks r)
  | F_serial =>
      mkEditableRow (base r) (_editing r) (_saving r) (_equipment_type r)
        (_product_name r) (_product_number r) v (_tag r) (_status r)
        (_remarks r)
  | F_tag =>
      mkEditableRow (base r) (_editing r) (_saving r) (_equipment_type r)
        (_product_name r) (_product_number r) (_serial r) v (_status r)
        (_remarks r)
  | F_status =>
      mkEditableRow (base r) (_editing r) (_saving r) (_equipment_type r)
        (_product_name r) (_product_number r) (_serial r) (_tag r) v
        (_remarks r)
  | F_remarks =>
      mkEditableRow (base r) (_editing r) (_saving r) (_equipment_type r)
        (_product_name r) (_product_number r) (_serial r) (_tag r)
        (_status r) v
  end.

(** [{ ...row, _editing: b }] and [{ ...row, _saving: b }]. *)
Definition set_editing (b : bool) (r : EditableRow) : EditableRow :=
  mkEditableRow (base r) (Some b) (_saving r) (_equipment_type r)
    (_product_name r) (_product_number r) (_serial r) (_tag r) (_status r)
    (_remarks r).

Definition set_saving (b : bool) (r : EditableRow) : EditableRow :=
  mkEditableRow (base r) (_editing r) (Some b) (_equipment_type r)
    (_product_name r) (_product_number r) (_serial r) (_tag r) (_status r)
    (_remarks r).

(** [.filter(Boolean)] on a column of optional strings. *)
Definition filter_truthy (data : list (option string)) : list string :=
  omap (fun o => match o with
                 | Some s => if truthy s then Some s else None
                 | None => None
                 end) data.

(** [fetchEquipmentTypes], with the cache of the render in [cs]. *)
Definition fetchEquipmentTypes (cs : State) (cat : string)
  : Prog (list string) :=
  match equipmentTypes cs !! cat with
  | Some types => Ret types
  | None =>
      resp ← await (SelectEquipmentTypes cat);
      match resp with
      | Err m =>
          upd (setError (const_ (Some ("Failed to load equipment types: " ++ m))));;
          Ret []
      | Ok data =>
          let types := filter_truthy data in
          upd (setEquipmentTypes (fun prev => <[cat := types]> prev));;
          Ret types
      end
  end.

(** [fetchProductNames]. *)
Definition fetchProductNames (cs : State) (cat equipmentType : string)
  : Prog (list string) :=
  let cacheKey := cat ++ ":" ++ equipmentType in
  match productNames cs !! cacheKey with
  | Some names => Ret names
  | None =>
      resp ← await (SelectProductNames cat equipmentType);
      match resp with
      | Err m =>
          upd (setError (const_ (Some ("Failed to load product names: " ++ m))));;
          Ret []
      | Ok data =>
          let names := filter_truthy data in
          upd (setProductNames (fun prev => <[cacheKey := names]> prev));;
          Ret names
      end
  end.

(** [data?.[0]?.product_number || null]. *)
Definition first_product_number (data : list (option string))
  : option string :=
  match data with
  | Some n :: _ => orNull n
  | _ => None
  end.

(** [fetchProductNumber]: the filters are added for a truthy category and a
    truthy equipment type; a failed query is tried again without filters;
    failures are logged and answered with [null]. *)
Definition fetchProductNumber (productName cat equipmentType : string)
  : Prog (option string) :=
  resp ← await (SelectProductNumber productName (orNull cat)
                  (orNull equipmentType));
  match resp with
  | Err _ =>
      fallback ← await (SelectProductNumber productName None None);
      match fallback with
      | Err _ => Ret None
      | Ok fallbackData => Ret (first_product_number fallbackData)
      end
  | Ok data => Ret (first_product_number data)
  end.

(** [[...new Set(l)]]: first occurrences, in order. *)
Fixpoint uniq (seen l : list string) : list string :=
  match l with
  | [] => []
  | x :: l' =>
      if bool_decide (x ∈ seen) then uniq seen l' else x :: uniq (x :: seen) l'
  end.

(** A value inside a template literal. *)
Definition template (o : option string) : string :=
  match o with Some s => s | None => "null" end.

Definition photo_key (table assetId : string) : string :=
  table ++ ":" ++ assetId.

(** The loop that groups the photos by [asset_table:asset_id]. *)
Definition group_photos (l : list AssetPhoto) : gmap string (list AssetPhoto) :=
  foldl (fun photoMap photo =>
           let key := photo_key (template (asset_table (rec photo)))
                        (asset_id (rec photo)) in
           <[key := (default [] (photoMap !! key) ++ [photo])%list]> photoMap)
        ∅ l.

(** One signed URL, valid for an hour; a failure leaves the URL empty. *)
Definition sign_photo (photo : PhotoRec) : Promise (Result string) AssetPhoto :=
  (CreateSignedUrl (storage_path photo) 3600,
   fun resp =>
     match resp with
     | Err _ => Ok (mkAssetPhoto photo "")
     | Ok url => Ok (mkAssetPhoto photo url)
     end).

(** [loadPhotosForAssets]. *)
Definition loadPhotosForAssets (assets : list (string * string)) : Prog unit :=
  match assets with
  | [] => upd (setPhotos (const_ ∅))
  | _ =>
      let tables := uniq [] (map fst assets) in
      let assetIds := map snd assets in
      resp ← await (SelectPhotos tables assetIds);
      match resp with
      | Err _ => Ret tt
      | Ok data =>
          photosWithUrls ← promise_all (map sign_photo data);
          upd (setPhotos (const_ (group_photos photosWithUrls)))
      end
  end.

(** [getAssetPhotos]. *)
Definition getAssetPhotos (s : State) (table assetId : string)
  : list AssetPhoto :=
  default [] (photos s !! photo_key table assetId).

(** [refreshTabData]; a failed query is logged and changes nothing. *)
Definition refreshTabData (tab : Tab) (siteIdParam : string) : Prog unit :=
  resp ← await (SelectAssets (TAB_TABLE_MAP tab) siteIdParam);
  match resp with
  | Err _ => Ret tt
  | Ok data =>
      upd (setTabData (fun prev => <[tab_name tab := map toEditable data]> prev));;
      upd (setTabCounts (fun prev => <[tab_name tab := length data]> prev))
  end.

Definition asset_listener (siteIdParam : string) (tab : Tab) : Listener :=
  {| l_event := AnyEvent; l_table := TAB_TABLE_MAP tab;
     l_filter := Some siteIdParam;
     l_callback := CbRefreshTab tab siteIdParam |}.

Definition photo_listener (assets : list (string * string)) : Listener :=
  {| l_event := InsertEvent; l_table := "asset_photos"; l_filter := None;
     l_callback := CbReloadPhotos assets |}.

(** [if (ref.current) supabase.removeChannel(ref.current)]. *)
Definition drop_channel (ref : State -> option Channel) : Prog unit :=
  Get (fun s =>
    match ref s with
    | Some c => RemoveChannel c (Ret tt)
    | None => Ret tt
    end).

(** [setupRealtimeSubscriptions]. *)
Definition setupRealtimeSubscriptions (siteIdParam : string)
    (assets : list (string * string)) : Prog unit :=
  drop_channel channelRef;;
  drop_channel photoChannelRef;;
  channel ← Subscribe "asset-changes" (map (asset_listener siteIdParam) TABS) Ret;
  upd (set_channelRef (const_ (Some channel)));;
  photoChannel ← Subscribe "photo-changes" [photo_listener assets] Ret;
  upd (set_photoChannelRef (const_ (Some photoChannel))).

(** The cleanup of the mount effect. *)
Definition unmount : Prog unit :=
  drop_channel channelRef;;
  drop_channel photoChannelRef.

(** [[...new Set(..)].sort()] orders by code units. *)
Definition code_unit_le (a b : string) : Prop := String.leb a b = true.

#[global] Instance code_unit_le_dec : RelDecision code_unit_le.
Proof. intros a b. unfold code_unit_le. apply _. Defined.

(** [fetchTagStatuses]. *)
Definition fetchTagStatuses (cs : State) : Prog (list string) :=
  match tagStatuses cs with
  | _ :: _ => Ret (tagStatuses cs)
  | [] =>
      resp ← await SelectTagStatus;
      match resp with
      | Err m =>
          upd (setError (const_ (Some ("Failed to load tag statuses: " ++ m))));;
          Ret []
      | Ok data =>
          let statuses := merge_sort code_unit_le (uniq [] (filter_truthy data)) in
          upd (setTagStatuses (const_ statuses));;
          Ret statuses
      end
  end.

(** The two effects that load the dropdown options once a search was made
    ([if (hasSearched && activeTab)] and [if (hasSearched)]), for the render
    with state [cs]. *)
Definition effects (cs : State) : Prog unit :=
  (if hasSearched cs && truthy (tab_name (activeTab cs))
   then fetchEquipmentTypes cs (tab_name (activeTab cs));; Ret tt
   else Ret tt);;
  (if hasSearched cs then fetchTagStatuses cs;; Ret tt else Ret tt).

(** [newTabData] and [newTabCounts] after the [results.forEach]. *)
Definition newTabData (results : list (Tab * list AssetRow))
  : Obj (list EditableRow) :=
  foldl (fun m r => <[tab_name (fst r) := map toEditable (snd r)]> m) ∅ results.

Definition newTabCounts (results : list (Tab * list AssetRow))
  : gmap string nat :=
  foldl (fun m r => <[tab_name (fst r) := length (snd r)]> m) ∅ results.

Definition assets_of_results (results : list (Tab * list AssetRow))
  : list (string * string) :=
  flat_map (fun r => map (fun row => (TAB_TABLE_MAP (fst r), id row)) (snd r))
    results.

(** [err.message || 'Failed to search assets']. *)
Definition or_else (m fallback : string) : string :=
  if truthy m then m else fallback.

(** The promise [handleSearch] makes for a tab: the rows of the tab's
    table for the site, or the error of the query ([if (queryError) throw
    queryError]). *)
Definition fetch_tab (query : string) (tab : Tab)
  : Promise (Result (list AssetRow)) (Tab * list AssetRow) :=
  (SelectAssets (TAB_TABLE_MAP tab) query,
   fun resp =>
     match resp with
     | Ok data => Ok (tab, data)
     | Err m => Err m
     end).

(** [handleSearch]. *)
Definition handleSearch (cs : State) : Prog unit :=
  let query := trim (searchQuery cs) in
  if negb (truthy query) then
    upd (setTabData (const_ ∅));;
    upd (setTabCounts (const_ ∅));;
    upd (setPhotos (const_ ∅));;
    upd (setHasSearched (const_ false));;
    upd (setSiteId (const_ ""))
  else
    upd (setLoading (const_ true));;
    upd (setError (const_ None));;
    upd (setHasSearched (const_ true));;
    upd (setSiteId (const_ query));;
    try_finally
      (try_catch
         (results ← promise_all (map (fetch_tab query) TABS);
          upd (setTabData (const_ (newTabData results)));;
          upd (setTabCounts (const_ (newTabCounts results)));;
          let allAssets := assets_of_results results in
          loadPhotosForAssets allAssets;;
          setupRealtimeSubscriptions query allAssets)
         (fun m => upd (setError (const_ (Some (or_else m "Failed to search assets"))))))
      (upd (setLoading (const_ false))).

(** [handleFieldChange]. *)
Definition handleFieldChange (tab : Tab) (rowId : string) (field : DraftField)
    (value : string) : Prog unit :=
  upd (setTabData
         (map_tab tab
            (on_row rowId (fun row => set_editing true (set_draft field value row))))).

(** [{ ...row, _equipment_type: value, _product_name: '', _product_number: '',
    _editing: true }]. *)
Definition change_equipment_type (value : string) (row : EditableRow)
  : EditableRow :=
  mkEditableRow (base row) (Some true) (_saving row) value "" ""
    (_serial row) (_tag row) (_status row) (_remarks row).

(** [handleEquipmentTypeChange]. *)
Definition handleEquipmentTypeChange (cs : State) (tab : Tab)
    (rowId value : string) : Prog unit :=
  upd (setLoadingDropdowns (const_ (Some (rowId ++ "-product"))));;
  upd (setTabData (map_tab tab (on_row rowId (change_equipment_type value))));;
  (if truthy value
   then fetchProductNames cs (tab_name tab) value;; Ret tt
   else Ret tt);;
  upd (setLoadingDropdowns (const_ None)).

(** [handleProductNameChange]. *)
Definition handleProductNameChange (tab : Tab) (rowId value equipmentType : string)
  : Prog unit :=
  upd (setLoadingDropdowns (const_ (Some (rowId ++ "-product_number"))));;
  upd (setTabData
         (map_tab tab
            (on_row rowId
               (fun row => set_editing true (set_draft F_product_name value row)))));;
  (if truthy value then
     productNumber ← fetchProductNumber value (tab_name tab) equipmentType;
     match productNumber with
     | Some n =>
         upd (setTabData
                (map_tab tab (on_row rowId (set_draft F_product_number n))))
     | None => Ret tt
     end
   else Ret tt);;
  upd (setLoadingDropdowns (const_ None)).

(** The argument of [.update(..)]: the seven drafts of the row. *)
Definition save_payload (row : EditableRow) : UpdatePayload :=
  {| u_equipment_type := _equipment_type row;
     u_product_name := _product_name row;
     u_product_number := _product_number row;
     u_serial := _serial row;
     u_tag := _tag row;
     u_status := _status row;
     u_remarks := _remarks row |}.

(** The object the row becomes after a successful save: the drafts of the
    saved [row] written over the fetched fields of [r], both flags off. *)
Definition promote (row r : EditableRow) : EditableRow :=
  {| base :=
       {| id := id (base r); site_id := site_id (base r);
          date_text := date_text (base r); category := category (base r);
          equipment_type := Some (_equipment_type row);
          product_name := Some (_product_name row);
          product_number := Some (_product_number row);
          serial := Some (_serial row);
          tag := Some (_tag row);
          status := Some (_status row);
          remarks := Some (_remarks row) |};
     _editing := Some false;
     _saving := Some false;
     _equipment_type := _equipment_type r;
     _product_name := _product_name r;
     _product_number := _product_number r;
     _serial := _serial r;
     _tag := _tag r;
     _status := _status r;
     _remarks := _remarks r |}.

(** [handleSaveRow]. *)
Definition handleSaveRow (tab : Tab) (row : EditableRow) : Prog unit :=
  let table := TAB_TABLE_MAP tab in
  upd (setTabData (map_tab tab (on_row (id (base row)) (set_saving true))));;
  try_catch
    (await_or_throw (UpdateAsset table (id (base row)) (save_payload row));;
     upd (setTabData (map_tab tab (on_row (id (base row)) (promote row)))))
    (fun m =>
       upd (setError (const_ (Some ("Failed to save: " ++ m))));;
       upd (setTabData (map_tab tab (on_row (id (base row)) (set_saving false))))).

(** The options of the product-name select of a row:
    [productNames[`${activeTab}:${row._equipment_type}`] || []]. *)
Definition product_name_options (s : State) (tab : Tab) (row : EditableRow)
  : list string :=
  default [] (productNames s !! (tab_name tab ++ ":" ++ _equipment_type row)).

(** [disabled={!row._editing || row._saving}] of the save button. *)
Definition save_disabled (row : EditableRow) : bool :=
  negb (flag (_editing row)) || flag (_saving row).

(** [TAB_TABLE_MAP[t]] for a key [t] of [tabData]; a key that names no tab
    has no entry in [TAB_TABLE_MAP]. *)
Definition table_of_key (t : string) : string :=
  match tab_of_name t with
  | Some tab => TAB_TABLE_MAP tab
  | None => "undefined"
  end.

(** The loop over [Object.entries(tabData)] that collects
    [{ table, id }] for every loaded row, tab by tab in the key order of
    the object. *)
Definition assets_of_tabData (td : Obj (list EditableRow))
  : list (string * string) :=
  flat_map (fun kv => map (fun r => (table_of_key (fst kv), id (base r)))
                        (snd kv))
    (entries td).

(** The storage path of a photo:
    [${siteId}/${table}/${row.id}/${photoType}/${file.name}]. *)
Definition storagePath (site table rowId : string) (photoType : PhotoType)
    (file : File) : string :=
  site ++ "/" ++ table ++ "/" ++ rowId ++ "/" ++ photo_type_name photoType
    ++ "/" ++ file_name file.

(** [handlePhotoUpload]; [file] is [e.target.files?.[0]] and [now] the
    clock reading of [new Date().toISOString()]. *)
Definition handlePhotoUpload (cs : State) (file : option File) (tab : Tab)
    (row : EditableRow) (photoType : PhotoType) (now : string) : Prog unit :=
  match file with
  | None => Ret tt
  | Some file =>
      let table := TAB_TABLE_MAP tab in
      let uploadKey := id (base row) ++ "-" ++ photo_type_name photoType in
      upd (setUploadingPhoto (const_ (Some uploadKey)));;
      try_finally
        (try_catch
           (let path := storagePath (siteId cs) table (id (base row))
                          photoType file in
            await_or_throw (StorageUpload path file);;
            await_or_throw
              (InsertPhoto
                 {| p_asset_id := id (base row);
                    p_asset_table := Some table;
                    p_photo_type := photoType;
                    p_storage_path := path;
                    p_public_url := None;
                    p_taken_at := Some now;
                    p_taken_by := user cs |});;
            loadPhotosForAssets (assets_of_tabData (tabData cs)))
           (fun m =>
              upd (setError (const_ (Some ("Failed to upload photo: " ++ m))))))
        (upd (setUploadingPhoto (const_ None)))
  end.

(** What [formatDateText] reads off a [Date]: [getDate()], [getMonth()]
    (from 0) and [getFullYear()]. *)
Record Date := mkDate { getDate : nat; getMonth : nat; getFullYear : nat }.

Definition months : list string :=
  ["Jan"; "Feb"; "Mar"; "Apr"; "May"; "Jun";
   "Jul"; "Aug"; "Sep"; "Oct"; "Nov"; "Dec"].

(** [s.slice(-2)]. *)
Definition slice_last2 (s : string) : string :=
  String.substring (String.length s - 2) 2 s.

(** [formatDateText], as in [1-Jul-25]. *)
Definition formatDateText (date : Date) : string :=
  pretty (getDate date) ++ "-" ++ nth (getMonth date) months "undefined"
    ++ "-" ++ slice_last2 (pretty (getFullYear date)).

(** The argument of [.insert(..)] in [handleAddNewRow]. *)
Definition new_row_payload (cs : State) (today : Date) : InsertPayload :=
  {| i_site_id := siteId cs;
     i_date_text := formatDateText today;
     i_category := tab_name (activeTab cs);
     i_equipment_type := nr_equipment_type (newRow cs);
     i_product_name := nr_product_name (newRow cs);
     i_product_number := orNull (nr_product_number (newRow cs));
     i_serial := or_else (nr_serial (newRow cs)) "NA";
     i_tag := or_else (nr_tag (newRow cs)) "NA";
     i_status := nr_status (newRow cs);
     i_remarks := orNull (nr_remarks (newRow cs)) |}.

(** [handleAddNewRow]; [today] is [new Date()]. *)
Definition handleAddNewRow (cs : State) (today : Date) : Prog unit :=
  if negb (truthy (siteId cs)) then
    upd (setError (const_ (Some "Site ID is required. Please search for a site first.")))
  else if negb (truthy (nr_equipment_type (newRow cs))) then
    upd (setError (const_ (Some "Equipment Type is required.")))
  else if negb (truthy (nr_product_name (newRow cs))) then
    upd (setError (const_ (Some "Product Name is required.")))
  else if negb (truthy (nr_status (newRow cs))) then
    upd (setError (const_ (Some "Tag & Serial Status is required.")))
  else
    let table := TAB_TABLE_MAP (activeTab cs) in
    upd (setNewRowSaving (const_ true));;
    upd (setError (const_ None));;
    try_finally
      (try_catch
         (data ← await_or_throw (InsertAsset table (new_row_payload cs today));
          upd (setNewAssetId (const_ (Some (id data))));;
          refreshTabData (activeTab cs) (siteId cs);;
          upd (setSuccessMessage
                 (const_ (Some ("New " ++ tab_name (activeTab cs)
                                  ++ " asset added! You can now upload photos.")))))
         (fun m => upd (setError (const_ (Some ("Failed to add new row: " ++ m))))))
      (upd (setNewRowSaving (const_ false))).

(** [resetNewRowForm]. *)
Definition resetNewRowForm : Prog unit :=
  upd (setNewRow (const_ (mkNewRow "" "" "" "" "" "" "")));;
  upd (setNewRowProductNames (const_ []));;
  upd (setNewAssetId (const_ None));;
  upd (setNewAssetPhotos (const_ [])).

(** [{ ...prev, equipment_type: value, product_name: '', product_number: '' }]. *)
Definition new_row_equipment_type (value : string) (prev : NewRow) : NewRow :=
  mkNewRow value "" "" (nr_serial prev) (nr_tag prev) (nr_status prev)
    (nr_remarks prev).

(** [handleNewRowEquipmentTypeChange]. *)
Definition handleNewRowEquipmentTypeChange (cs : State) (value : string)
  : Prog unit :=
  upd (setNewRow (new_row_equipment_type value));;
  if truthy value then
    names ← fetchProductNames cs (tab_name (activeTab cs)) value;
    upd (setNewRowProductNames (const_ names))
  else
    upd (setNewRowProductNames (const_ [])).

Definition new_row_product_name (value : string) (prev : NewRow) : NewRow :=
  mkNewRow (nr_equipment_type prev) value (nr_product_number prev)
    (nr_serial prev) (nr_tag prev) (nr_status prev) (nr_remarks prev).

Definition new_row_product_number (value : string) (prev : NewRow) : NewRow :=
  mkNewRow (nr_equipment_type prev) (nr_product_name prev) value
    (nr_serial prev) (nr_tag prev) (nr_status prev) (nr_remarks prev).

(** [handleNewRowProductNameChange]. *)
Definition handleNewRowProductNameChange (cs : State) (value : string)
  : Prog unit :=
  upd (setNewRow (new_row_product_name value));;
  if truthy value then
    productNumber ← fetchProductNumber value (tab_name (activeTab cs))
                      (nr_equipment_type (newRow cs));
    match productNumber with
    | Some n => upd (setNewRow (new_row_product_number n))
    | None => Ret tt
    end
  else Ret tt.

(** [handleNewAssetPhotoUpload]: the photo of a row just added; its record
    too is written by [.insert(..)]. *)
Definition handleNewAssetPhotoUpload (cs : State) (file : option File)
    (photoType : PhotoType) (now : string) : Prog unit :=
  match file, newAssetId cs with
  | Some file, Some assetId =>
      let table := TAB_TABLE_MAP (activeTab cs) in
      upd (setUploadingNewPhoto (const_ (Some photoType)));;
      try_finally
        (try_catch
           (let path := storagePath (siteId cs) table assetId photoType file in
            await_or_throw (StorageUpload path file);;
            photoData ← await_or_throw
              (InsertPhoto
                 {| p_asset_id := assetId;
                    p_asset_table := Some table;
                    p_photo_type := photoType;
                    p_storage_path := path;
                    p_public_url := None;
                    p_taken_at := Some now;
                    p_taken_by := user cs |});
            signedData ← await (CreateSignedUrl path 3600);
            let newPhoto :=
              mkAssetPhoto photoData
                match signedData with Ok url => url | Err _ => "" end in
            upd (setNewAssetPhotos (fun prev => prev ++ [newPhoto])%list);;
            upd (setSuccessMessage
                   (const_ (Some (match photoType with
                                  | serial_photo => "Serial"
                                  | tag_photo => "Tag"
                                  end ++ " photo uploaded!")))))
           (fun m =>
              upd (setError (const_ (Some ("Failed to upload photo: " ++ m))))))
        (upd (setUploadingNewPhoto (const_ None)))
  | _, _ => Ret tt
  end.

(** [handleDoneWithNewAsset]. *)
Definition handleDoneWithNewAsset (cs : State) : Prog unit :=
  loadPhotosForAssets (assets_of_tabData (tabData cs));;
  resetNewRowForm;;
  upd (setShowAddForm (const_ false)).

(** [handleCancelAddRow]. *)
Definition handleCancelAddRow : Prog unit :=
  resetNewRowForm;;
  upd (setShowAddForm (const_ false)).

(** ** [uploadPhoto] of the asset drawer ([AssetDetail]) *)

(** [name.split('.').pop()]: what follows the last dot, the whole name when
    there is none. *)
Fixpoint last_segment (acc s : string) : string :=
  match s with
  | EmptyString => acc
  | String c s' =>
      if Ascii.eqb c "."%char then last_segment s' s'
      else last_segment acc s'
  end.

Definition fileExt (file : File) : string :=
  last_segment (file_name file) (file_name file).

(** [getPublicUrl(path).data.publicUrl]: computed by the client, no request. *)
Definition getPublicUrl (path : string) : string :=
  "/storage/v1/object/public/asset-photos/" ++ path.

(** [uploadPhoto]: the record is written with [.upsert(..,
    { onConflict: 'asset_id,photo_type' })]. *)
Definition uploadPhoto (asset_site_id asset_id_ : string) (file : File)
    (photoType : PhotoType) : Prog unit :=
  let fileName := asset_site_id ++ "/" ++ asset_id_ ++ "/"
                    ++ photo_type_name photoType ++ "." ++ fileExt file in
  await_or_throw (StorageUpload fileName file);;
  await_or_throw
    (UpsertPhoto
       {| p_asset_id := asset_id_;
          p_asset_table := None;
          p_photo_type := photoType;
          p_storage_path := fileName;
          p_public_url := Some (getPublicUrl fileName);
          p_taken_at := None;
          p_taken_by := None |}).

(** ** Change notifications *)

(** A change the database reports: the event, the table, and the [site_id]
    of the changed row (photo records have none). *)
Record Notification := mkNotification {
  n_event : PgEvent;
  n_table : string;
  n_site : option string;
}.

Definition event_matches (listens occurred : PgEvent) : bool :=
  match listens, occurred with
  | AnyEvent, _ => true
  | InsertEvent, InsertEvent
  | UpdateEvent, UpdateEvent
  | DeleteEvent, DeleteEvent => true
  | _, _ => false
  end.

(** The realtime service sends a change to a listener of that table and
    event whose filter, if any, the changed row passes. *)
Definition listens_to (n : Notification) (l : Listener) : bool :=
  event_matches (l_event l) (n_event n)
  && bool_decide (l_table l = n_table n)
  && match l_filter l with
     | None => true
     | Some s => bool_decide (n_site n = Some s)
     end.

(** The callbacks a change fires, over the channels that are open. *)
Definition fired (w : World) (n : Notification) : list Callback :=
  flat_map (fun c => map l_callback (List.filter (listens_to n) (chan_listeners c)))
    (active w).

Definition callback (cb : Callback) : Prog unit :=
  match cb with
  | CbRefreshTab tab siteIdParam => refreshTabData tab siteIdParam
  | CbReloadPhotos assets => loadPhotosForAssets assets
  end.

Fixpoint run_all (ps : list (Prog unit)) : Prog unit :=
  match ps with
  | [] => Ret tt
  | p :: ps' => settle p;; run_all ps'
  end.

(** The page's reaction to one change notification. *)
Definition notify (w : World) (n : Notification) : Prog unit :=
  run_all (map callback (fired w n)).

(** ** User actions and the page as a transition system

    One action of the user (or of the realtime service) runs the handler
    that the latest render created, to its end.  The actions are those of
    one mount of the page, to its [Unmount]; a page that is mounted again
    is another instance, see the several mounts below. *)

Inductive Action :=
| TypeQuery (q : string)
| Search
| SelectTab (tab : Tab)
| RunEffects
| FieldChange (tab : Tab) (rowId : string) (field : DraftField) (value : string)
| EquipmentTypeChange (tab : Tab) (rowId value : string)
| ProductNameChange (tab : Tab) (rowId value equipmentType : string)
| SaveRow (tab : Tab) (row : EditableRow)
| PhotoUpload (file : option File) (tab : Tab) (row : EditableRow)
    (photoType : PhotoType) (now : string)
| OpenAddForm
| EditNewRow (f : NewRow -> NewRow)
| NewRowEquipmentTypeChange (value : string)
| NewRowProductNameChange (value : string)
| AddNewRow (today : Date)
| NewAssetPhotoUpload (file : option File) (photoType : PhotoType) (now : string)
| DoneWithNewAsset
| CancelAddRow
| Notify (n : Notification)
| Unmount.

Definition handler (a : Action) (cs : State) (w : World) : Prog unit :=
  match a with
  | TypeQuery q => upd (setSearchQuery (const_ q))
  | Search => handleSearch cs
  | SelectTab tab => upd (setActiveTab (const_ tab))
  | RunEffects => effects cs
  | FieldChange tab rowId field value => handleFieldChange tab rowId field value
  | EquipmentTypeChange tab rowId value =>
      handleEquipmentTypeChange cs tab rowId value
  | ProductNameChange tab rowId value equipmentType =>
      handleProductNameChange tab rowId value equipmentType
  | SaveRow tab row => handleSaveRow tab row
  | PhotoUpload file tab row photoType now =>
      handlePhotoUpload cs file tab row photoType now
  | OpenAddForm => upd (setShowAddForm (const_ true))
  | EditNewRow f => upd (setNewRow f)
  | NewRowEquipmentTypeChange value => handleNewRowEquipmentTypeChange cs value
  | NewRowProductNameChange value => handleNewRowProductNameChange cs value
  | AddNewRow today => handleAddNewRow cs today
  | NewAssetPhotoUpload file photoType now =>
      handleNewAssetPhotoUpload cs file photoType now
  | DoneWithNewAsset => handleDoneWithNewAsset cs
  | CancelAddRow => handleCancelAddRow
  | Notify n => notify w n
  | Unmount => unmount
  end.

Definition step (fails : Oracle) (a : Action)
    (sw : State * World) : State * World :=
  let o := run fails (handler a (fst sw) (snd sw)) (fst sw) (snd sw) in
  (st o, world o).

Definition steps (fails : Oracle) (l : list Action)
    (sw : State * World) : State * World :=
  foldl (fun sw a => step fails a sw) sw l.

(** The state of the first render, over a given backend. *)
Definition initial_state : State :=
  {| searchQuery := ""; siteId := ""; activeTab := Enclosure; tabData := ∅;
     tabCounts := ∅; photos := ∅; loading := false; error := None;
     hasSearched := false; uploadingPhoto := None; equipmentTypes := ∅;
     productNames := ∅; tagStatuses := []; loadingDropdowns := None;
     showAddForm := false; newRowSaving := false; successMessage := None;
     newRow := mkNewRow "" "" "" "" "" "" ""; newRowProductNames := [];
     newAssetId := None; newAssetPhotos := []; uploadingNewPhoto := None;
     channelRef := None; photoChannelRef := None; user := None |}.

Definition initial_world (b : Backend) : World :=
  {| backend := b; active := []; next_chan := 0 |}.

(** ** Handlers in flight

    Handlers do not run to their end in one piece: at an [await] a handler
    is parked with its request, and other handlers, or the callbacks of
    notifications, run before the answer arrives. *)

(** A handler parked at a request. *)
Inductive Task : Type :=
| Waiting (R : Type) (r : Req R) (k : R -> Prog unit) : Task
| WaitingAll (R B : Type) (slots : list (Promise R B * option B))
    (k : Result (list B) -> Prog unit) : Task.
Arguments Waiting {R} r k.
Arguments WaitingAll {R B} slots k.

(** A handler parked at a [Promise.all] holds one slot for each promise:
    the promise, and its value once its request was answered. *)
Definition open_slots {R B : Type} (ps : list (Promise R B))
  : list (Promise R B * option B) :=
  map (fun p => (p, None)) ps.

(** The position of the [j]-th promise whose request is still in flight. *)
Fixpoint nth_open {R B : Type} (j : nat) (slots : list (Promise R B * option B))
  : option nat :=
  match slots with
  | [] => None
  | (_, Some _) :: rest => option_map S (nth_open j rest)
  | (_, None) :: rest =>
      match j with
      | 0 => Some 0
      | S j' => option_map S (nth_open j' rest)
      end
  end.

(** The values in the order of the promises, once every promise has one. *)
Fixpoint all_values {R B : Type} (slots : list (Promise R B * option B))
  : option (list B) :=
  match slots with
  | [] => Some []
  | (_, v) :: rest =>
      match v, all_values rest with
      | Some b, Some bs => Some (b :: bs)
      | _, _ => None
      end
  end.

(** A handler run up to its next [await]. *)
Fixpoint advance (p : Prog unit) (s : State) (w : World)
  : State * World * option Task :=
  match p with
  | Ret _ | Throw _ => (s, w, None)
  | Upd f k => advance k (f s) w
  | Get k => advance (k s) s w
  | Await r k => (s, w, Some (Waiting r k))
  | RemoveChannel c k => advance k s (remove_channel c w)
  | Subscribe name ls k =>
      advance (k (fst (open_channel name ls w))) s (snd (open_channel name ls w))
  | AwaitAll ps k =>
      match ps with
      | [] => advance (k (Ok [])) s w
      | _ => (s, w, Some (WaitingAll (open_slots ps) k))
      end
  end.

Record Config := mkConfig {
  page : State;
  env : World;
  pending : list Task;
}.

(** What happens next: an action starts its handler, or a request of the
    [i]-th parked handler is answered: its request, or the first one still
    in flight of its [Promise.all] ([Answer]), or the [j]-th one still in
    flight ([AnswerNth]).  A handler parked at an [await] goes on with the
    answer.  A handler parked at a [Promise.all] goes on when the last of
    its requests is answered, or as soon as one of its promises rejects;
    the answers that come after a rejection are ignored. *)
Inductive Event :=
| Act (a : Action)
| Answer (i : nat)
| AnswerNth (i j : nat).

Definition parked (swt : State * World * option Task) (others : list Task)
  : Config :=
  {| page := fst (fst swt); env := snd (fst swt);
     pending := (others ++ option_list (snd swt))%list |}.

Definition answer (fails : Oracle) (i j : nat) (c : Config) : Config :=
  match pending c !! i with
  | Some (Waiting r k) =>
      match j with
      | 0 =>
          let rb := serve fails r (backend (env c)) in
          parked (advance (k (fst rb)) (page c) (with_backend (snd rb) (env c)))
            (delete i (pending c))
      | S _ => c
      end
  | Some (WaitingAll slots k) =>
      match nth_open j slots with
      | Some n =>
          match slots !! n with
          | Some (p, _) =>
              let rb := serve fails (fst p) (backend (env c)) in
              let w' := with_backend (snd rb) (env c) in
              match snd p (fst rb) with
              | Err m =>
                  parked (advance (k (Err m)) (page c) w') (delete i (pending c))
              | Ok v =>
                  let slots' := <[n := (p, Some v)]> slots in
                  match all_values slots' with
                  | Some vs =>
                      parked (advance (k (Ok vs)) (page c) w')
                        (delete i (pending c))
                  | None =>
                      {| page := page c; env := w';
                         pending := <[i := WaitingAll slots' k]> (pending c) |}
                  end
              end
          | None => c
          end
      | None => c
      end
  | None => c
  end.

Definition fire (fails : Oracle) (e : Event) (c : Config) : Config :=
  match e with
  | Act a =>
      parked (advance (handler a (page c) (env c)) (page c) (env c)) (pending c)
  | Answer i => answer fails i 0 c
  | AnswerNth i j => answer fails i j c
  end.

Definition play (fails : Oracle) (es : list Event) (c : Config) : Config :=
  foldl (fun c e => fire fails e c) c es.

Definition initial_config (b : Backend) : Config :=
  {| page := initial_state; env := initial_world b; pending := [] |}.

(** The requests of a parked handler that are in flight. *)
Definition requests_of (t : Task) : list NetCall :=
  match t with
  | Waiting r _ => [Sent r]
  | WaitingAll slots _ =>
      flat_map (fun slot =>
                  match snd slot with
                  | None => [Sent (fst (fst slot))]
                  | Some _ => []
                  end) slots
  end.

(** ** Several mounts of the page

    The route of the page can be left and entered again.  Each mount is an
    instance of the component, with state cells and ref cells of its own
    that start as in the first render; the Supabase client, with its
    channels, belongs to the module and is the same for all of them.  The
    handlers of an instance that was unmounted are not cancelled: they go
    on when their requests are answered, on the cells of their instance.
    The listeners of a channel are closures of the instance that opened
    it. *)

Record Instance := mkInstance {
  i_page : State;
  i_pending : list Task;
  i_channels : list nat;
}.

Record Session := mkSession {
  instances : list Instance;
  client : World;
}.

(** The client as far as an instance is called by it: the channels that
    the instance opened. *)
Definition owned (ids : list nat) (w : World) : World :=
  {| backend := backend w;
     active := List.filter (fun c => bool_decide (chan_id c ∈ ids)) (active w);
     next_chan := next_chan w |}.

(** An event of one instance, over the client: as [fire], except that a
    change notification calls the listeners of the channels of this
    instance only.  The channels opened on the way are this instance's. *)
Definition fire_at (fails : Oracle) (e : Event) (inst : Instance) (w : World)
  : Instance * World :=
  let c0 := {| page := i_page inst; env := w; pending := i_pending inst |} in
  let c :=
    match e with
    | Act a =>
        parked (advance (handler a (i_page inst) (owned (i_channels inst) w))
                  (i_page inst) w)
          (i_pending inst)
    | Answer j => answer fails j 0 c0
    | AnswerNth j k => answer fails j k c0
    end in
  ({| i_page := page c; i_pending := pending c;
      i_channels := (i_channels inst
                     ++ seq (next_chan w) (next_chan (env c) - next_chan w))%list |},
   env c).

(** What happens in a session: the page is mounted (once more), something
    happens at the [i]-th instance, or the database reports a change, which
    reaches the listeners of every instance. *)
Inductive SessionEvent :=
| Mount
| At (i : nat) (e : Event)
| Change (n : Notification).

Definition session_at (fails : Oracle) (i : nat) (e : Event) (x : Session)
  : Session :=
  match instances x !! i with
  | Some inst =>
      let iw := fire_at fails e inst (client x) in
      {| instances := <[i := fst iw]> (instances x); client := snd iw |}
  | None => x
  end.

Definition session_fire (fails : Oracle) (e : SessionEvent) (x : Session)
  : Session :=
  match e with
  | Mount =>
      {| instances := (instances x ++ [mkInstance initial_state [] []])%list;
         client := client x |}
  | At i e => session_at fails i e x
  | Change n =>
      foldl (fun x i => session_at fails i (Act (Notify n)) x) x
        (seq 0 (length (instances x)))
  end.

Definition session_play (fails : Oracle) (es : list SessionEvent) (x : Session)
  : Session :=
  foldl (fun x e => session_fire fails e x) x es.

Definition initial_session (b : Backend) : Session :=
  {| instances := []; client := initial_world b |}.

(** The outcome of one run followed by another. *)
Definition then_ {A B : Type} (o : Outcome A) (o' : Outcome B) : Outcome B :=
  mkOutcome (out o') (st o') (world o') (calls o ++ calls o')%list.


(** ** Vocabulary of the statements *)

(** A request that inserts a row into an asset table. *)
Definition is_insert (c : NetCall) : bool :=
  match c with
  | Sent r => match r with InsertAsset _ _ => true | _ => false end
  end.

(** The four required inputs of the new-row form are present. *)
Definition required_present (cs : State) : bool :=
  truthy (siteId cs) && truthy (nr_equipment_type (newRow cs))
  && truthy (nr_product_name (newRow cs)) && truthy (nr_status (newRow cs)).

(** The sites of the rows a tab shows. *)
Definition shown_sites (c : State) (tab : Tab) : list string :=
  map (fun r => site_id (base r)) (default [] (tabData c !! tab_name tab)).

(** Two rows that differ at most in the [_saving] flag. *)
Definition same_but_saving (r r' : EditableRow) : Prop :=
  base r' = base r /\ _editing r' = _editing r
  /\ forall f, draft f r' = draft f r.

(** The oracle that fails the requests picked by [P], with message [m]. *)
Definition fail_on (P : NetCall -> bool) (m : string) : Oracle :=
  fun R r => if P (Sent r) then Some m else None.

Definition is_update (c : NetCall) : bool :=
  match c with
  | Sent r => match r with UpdateAsset _ _ _ => true | _ => false end
  end.

Definition is_catalog_lookup (c : NetCall) : bool :=
  match c with
  | Sent r => match r with SelectProductNumber _ _ _ => true | _ => false end
  end.

(** ** Editing a row through its cells *)

#[global] Instance DraftField_eq_dec : EqDecision DraftField.
Proof. solve_decision. Defined.
















(** ** What a search finds and what the photo loader builds *)

(** The answers of the five queries of a search for [q], tab by tab. *)
Definition search_results (b : Backend) (q : string)
  : list (Tab * list AssetRow) :=
  map (fun tab => (tab, select_assets b (TAB_TABLE_MAP tab) q)) TABS.

(** A photo record with the signed URL it gets, the empty string if signing
    fails. *)
Definition sign (fails : Oracle) (b : Backend) (p : PhotoRec) : AssetPhoto :=
  mkAssetPhoto p
    match fst (serve fails (CreateSignedUrl (storage_path p) 3600) b) with
    | Ok url => url
    | Err _ => ""
    end.

(** The photo map after [loadPhotosForAssets assets], when it was [old]. *)
Definition loaded_photos (fails : Oracle) (b : Backend)
    (assets : list (string * string)) (old : gmap string (list AssetPhoto))
  : gmap string (list AssetPhoto) :=
  match assets with
  | [] => ∅
  | _ =>
      match fails _ (SelectPhotos (uniq [] (map fst assets)) (map snd assets)) with
      | Some _ => old
      | None =>
          group_photos
            (map (sign fails b)
               (select_photos b (uniq [] (map fst assets)) (map snd assets)))
      end
  end.

(** [if (ref.current) supabase.removeChannel(ref.current)] on the world. *)
Definition dropped (ref : option Channel) (w : World) : World :=
  match ref with Some c => remove_channel c w | None => w end.

(** The world and the two ref cells after [setupRealtimeSubscriptions]. *)
Definition resubscribed (siteIdParam : string) (assets : list (string * string))
    (s : State) (w : World) : State * World :=
  let w1 := dropped (photoChannelRef s) (dropped (channelRef s) w) in
  let cw := open_channel "asset-changes" (map (asset_listener siteIdParam) TABS) w1 in
  let cw' := open_channel "photo-changes" [photo_listener assets] (snd cw) in
  (set_photoChannelRef (const_ (Some (fst cw')))
     (set_channelRef (const_ (Some (fst cw))) s),
   snd cw').

(** The page and the world after a search for a non-empty [q] whose five
    queries are answered. *)
Definition searched (fails : Oracle) (q : string) (s : State) (w : World)
  : State * World :=
  let results := search_results (backend w) q in
  let allAssets := assets_of_results results in
  let s1 :=
    setTabCounts (const_ (newTabCounts results))
      (setTabData (const_ (newTabData results))
         (setSiteId (const_ q)
            (setHasSearched (const_ true)
               (setError (const_ None) (setLoading (const_ true) s))))) in
  let s2 :=
    setPhotos (const_ (loaded_photos fails (backend w) allAssets (photos s1))) s1 in
  let sw := resubscribed q allAssets s2 w in
  (setLoading (const_ false) (fst sw), snd sw).

(** The photo records of one asset in one table and of one type. *)
Definition records_of (b : Backend) (table assetId : string) (t : PhotoType)
  : list PhotoRec :=
  List.filter
    (fun p => bool_decide (asset_table p = Some table)
              && bool_decide (asset_id p = assetId)
              && PhotoType_eqb (photo_type p) t)
    (asset_photos b).


(** The argument of the insert in [handlePhotoUpload]. *)
Definition photo_payload (cs : State) (tab : Tab) (row : EditableRow)
    (photoType : PhotoType) (file : File) (now : string) : PhotoPayload :=
  {| p_asset_id := id (base row);
     p_asset_table := Some (TAB_TABLE_MAP tab);
     p_photo_type := photoType;
     p_storage_path :=
       storagePath (siteId cs) (TAB_TABLE_MAP tab) (id (base row)) photoType file;
     p_public_url := None;
     p_taken_at := Some now;
     p_taken_by := user cs |}.

(** The key under which [group_photos] files a photo. *)
Definition key_of (photo : AssetPhoto) : string :=
  photo_key (template (asset_table (rec photo))) (asset_id (rec photo)).

(** ** Channels *)

(** The open channels of a given name. *)
Definition open_channels (name : string) (w : World) : list Channel :=
  filter (fun c => chan_name c = name) (active w).

(** Every open channel is the one a ref cell holds: an asset channel in
    [channelRef], a photo channel in [photoChannelRef]; channel objects are
    distinct and older than the next one. *)
Definition channels_tracked (s : State) (w : World) : Prop :=
  NoDup (map chan_id (active w))
  /\ (forall c, c ∈ active w -> chan_id c < next_chan w)
  /\ (forall c, c ∈ active w ->
        (chan_name c = "asset-changes" /\ channelRef s = Some c)
        \/ (chan_name c = "photo-changes" /\ photoChannelRef s = Some c)).

(** A handler that calls nothing on the realtime client and assigns neither
    ref cell. *)
Fixpoint quiet {A : Type} (p : Prog A) : Prop :=
  match p with
  | Ret _ | Throw _ => True
  | Upd f k =>
      (forall s, channelRef (f s) = channelRef s
                 /\ photoChannelRef (f s) = photoChannelRef s)
      /\ quiet k
  | Get k => forall s, quiet (k s)
  | Await _ k => forall x, quiet (k x)
  | AwaitAll _ k => forall x, quiet (k x)
  | RemoveChannel _ _ | Subscribe _ _ _ => False
  end.

(** [safe p Q s w]: started in state [s] and world [w], the handler [p]
    has the channels tracked whenever it waits for an answer, and ends (by
    returning or throwing) with [Q]; while it waits, anything may happen to
    the page and the world that keeps the channels tracked. *)
Fixpoint safe {A : Type} (p : Prog A)
    (Q : Result A -> State -> World -> Prop) (s : State) (w : World) : Prop :=
  match p with
  | Ret a => Q (Ok a) s w
  | Throw m => Q (Err m) s w
  | Upd f k => safe k Q (f s) w
  | Get k => safe (k s) Q s w
  | Await _ k =>
      channels_tracked s w
      /\ forall x s' w', channels_tracked s' w' -> safe (k x) Q s' w'
  | RemoveChannel c k => safe k Q s (remove_channel c w)
  | Subscribe name ls k =>
      safe (k (fst (open_channel name ls w))) Q s (snd (open_channel name ls w))
  | AwaitAll _ k =>
      channels_tracked s w
      /\ forall x s' w', channels_tracked s' w' -> safe (k x) Q s' w'
  end.

(** A handler that keeps the channels tracked, at each of its awaits and at
    its end, from any state in which they are. *)
Definition safe_handler {A : Type} (p : Prog A) : Prop :=
  forall s w, channels_tracked s w ->
    safe p (fun _ s' w' => channels_tracked s' w') s w.

(** A parked handler that keeps the channels tracked when it goes on. *)
Definition task_safe (t : Task) : Prop :=
  match t with
  | Waiting r k =>
      forall x s w, channels_tracked s w ->
        safe (k x) (fun _ s' w' => channels_tracked s' w') s w
  | WaitingAll slots k =>
      forall x s w, channels_tracked s w ->
        safe (k x) (fun _ s' w' => channels_tracked s' w') s w
  end.

(** The two channels [setupRealtimeSubscriptions] opens in a world whose
    next channel number is [n]. *)
Definition asset_channel (n : nat) (siteIdParam : string) : Channel :=
  {| chan_id := n; chan_name := "asset-changes";
     chan_listeners := map (asset_listener siteIdParam) TABS |}.

Definition photo_channel (n : nat) (assets : list (string * string)) : Channel :=
  {| chan_id := S n; chan_name := "photo-changes";
     chan_listeners := [photo_listener assets] |}.

(** The world at the moment a handler opens its first channel (at its first
    request or at its end, if that comes before). *)
Fixpoint until_subscribe {A : Type} (p : Prog A) (s : State) (w : World)
  : World :=
  match p with
  | Ret _ | Throw _ | Await _ _ | Subscribe _ _ _ | AwaitAll _ _ => w
  | Upd f k => until_subscribe k (f s) w
  | Get k => until_subscribe (k s) s w
  | RemoveChannel c k => until_subscribe k s (remove_channel c w)
  end.

(** ** Sample data *)

(** Site A has two enclosure rows (one without serial, product number and
    remarks) and site B one. *)
Definition row_r1 : AssetRow :=
  {| id := "r1"; site_id := "A"; date_text := Some "1-Jul-25";
     category := Some "Enclosure"; equipment_type := Some "Cabinet";
     product_name := Some "X1"; product_number := Some "123";
     serial := None; tag := Some "T9"; status := Some "OK";
     remarks := None |}.

Definition row_r2 : AssetRow :=
  {| id := "r2"; site_id := "A"; date_text := Some "3-Jul-25";
     category := Some "Enclosure"; equipment_type := Some "Rack";
     product_name := Some "Y2"; product_number := None;
     serial := Some "S2"; tag := Some "T2"; status := Some "OK";
     remarks := Some "checked" |}.

Definition row_r3 : AssetRow :=
  {| id := "r3"; site_id := "B"; date_text := Some "2-Jul-25";
     category := Some "Enclosure"; equipment_type := Some "Cabinet";
     product_name := Some "X1"; product_number := None;
     serial := Some "S3"; tag := None; status := None; remarks := None |}.

Definition photo_ph1 : PhotoRec :=
  {| photo_id := "ph1"; asset_id := "r1";
     asset_table := Some "enclosure_assets"; photo_type := serial_photo;
     storage_path := "A/enclosure_assets/r1/serial/old.jpg";
     public_url := None; taken_at := Some "2025-07-01T10:00:00.000Z";
     taken_by := None |}.

Definition sample_backend : Backend :=
  {| assets := {[ "enclosure_assets" := [row_r1; row_r2; row_r3] ]};
     asset_photos := [photo_ph1];
     bucket := {[ "A/enclosure_assets/r1/serial/old.jpg" :=
                    mkFile "old.jpg" "old bytes" ]};
     product_catalog := [];
     v_equipment_types := [];
     v_product_names := [];
     v_tag_status := [];
     next_id := 0;
     photos_unique := false |}.

(** The same tables, with the constraint [UNIQUE(asset_id, photo_type)] on
    [asset_photos], as in the README's schema. *)
Definition sample_backend_unique : Backend :=
  {| assets := assets sample_backend;
     asset_photos := asset_photos sample_backend;
     bucket := bucket sample_backend;
     product_catalog := product_catalog sample_backend;
     v_equipment_types := v_equipment_types sample_backend;
     v_product_names := v_product_names sample_backend;
     v_tag_status := v_tag_status sample_backend;
     next_id := next_id sample_backend;
     photos_unique := true |}.


Definition sample_world : World := initial_world sample_backend.

(** The page with the enclosure rows of site A loaded, and the product
    names of [Enclosure:Cabinet] in the cache. *)
Definition sample_state : State :=
  setProductNames (const_ {[ "Enclosure:Cabinet" := ["X1"] ]})
    (setTabData (const_ {[ "Enclosure" := [toEditable row_r2; toEditable row_r1] ]})
       (setSiteId (const_ "A") initial_state)).

Definition new_file : File := mkFile "new.jpg" "new bytes".

(** Another user changed a row of site A in the enclosure table. *)
Definition change_at_site_A : Notification :=
  {| n_event := UpdateEvent; n_table := "enclosure_assets"; n_site := Some "A" |}.

(** A schedule: the user searches site A and the seven requests of that
    search are answered (five tables, the photo records, one signed URL);
    then the user searches site B and its five table queries are answered,
    which leaves that search waiting for the photo records of site B. *)
Definition search_A_then_B_in_flight : list Event :=
  [Act (TypeQuery "A"); Act Search;
   Answer 0; Answer 0; Answer 0; Answer 0; Answer 0; Answer 0; Answer 0;
   Act (TypeQuery "B"); Act Search;
   Answer 0; Answer 0; Answer 0; Answer 0; Answer 0].

(** A session: the page is mounted, the user searches site A and leaves
    the page while the search is under way; then the seven requests of the
    search are answered. *)
Definition search_outlives_unmount : list SessionEvent :=
  [Mount; At 0 (Act (TypeQuery "A")); At 0 (Act Search); At 0 (Act Unmount);
   At 0 (Answer 0); At 0 (Answer 0); At 0 (Answer 0); At 0 (Answer 0);
   At 0 (Answer 0); At 0 (Answer 0); At 0 (Answer 0)].

(** The user comes back: the page is mounted again, the user searches site
    A and the seven requests of that search are answered. *)
Definition search_after_remount : list SessionEvent :=
  [Mount; At 1 (Act (TypeQuery "A")); At 1 (Act Search);
   At 1 (Answer 0); At 1 (Answer 0); At 1 (Answer 0); At 1 (Answer 0);
   At 1 (Answer 0); At 1 (Answer 0); At 1 (Answer 0)].

(** Then a row of site A changes; the re-fetch it triggers is answered
    first, the photo query of the search second. *)
Definition change_arrives_during_search : list Event :=
  [Act (Notify change_at_site_A); Answer 1; Answer 0].

(** * Properties *)

(** ** Objects *)

Lemma obj_lookup_empty {V : Type} (k : string) : (∅ : Obj V) !! k = None.
Proof. reflexivity. Qed.

Lemma obj_lookup_insert_eq {V : Type} (o : Obj V) k v : <[k := v]> o !! k = Some v.
Proof.
  destruct o as [l]. unfold lookup, insert, Obj_lookup, Obj_insert. simpl.
  induction l as [|kv l IH]; simpl.
  - rewrite bool_decide_eq_true_2 by reflexivity. reflexivity.
  - destruct (decide (fst kv = k)) as [E|E]; simpl.
    + rewrite bool_decide_eq_true_2 by reflexivity. reflexivity.
    + rewrite bool_decide_eq_false_2 by exact E. exact IH.
Qed.

Lemma obj_lookup_insert_ne {V : Type} (o : Obj V) k k' v :
  k <> k' -> <[k := v]> o !! k' = o !! k'.
Proof.
  intros Hne. destruct o as [l].
  unfold lookup, insert, Obj_lookup, Obj_insert. simpl.
  induction l as [|kv l IH]; simpl.
  - rewrite bool_decide_eq_false_2 by exact Hne. reflexivity.
  - destruct (decide (fst kv = k)) as [E|E]; simpl.
    + rewrite bool_decide_eq_false_2 by exact Hne.
      rewrite bool_decide_eq_false_2 by congruence. reflexivity.
    + destruct (bool_decide (fst kv = k')); [reflexivity | exact IH].
Qed.

Lemma obj_insert_insert_eq {V : Type} (o : Obj V) k v1 v2 :
  <[k := v2]> (<[k := v1]> o) = <[k := v2]> o.
Proof.
  destruct o as [l]. unfold insert, Obj_insert. simpl. f_equal.
  induction l as [|kv l IH]; simpl.
  - rewrite decide_True by reflexivity. reflexivity.
  - destruct (decide (fst kv = k)) as [E|E]; simpl.
    + rewrite decide_True by reflexivity. reflexivity.
    + rewrite decide_False by exact E. rewrite IH. reflexivity.
Qed.

Lemma obj_insert_id {V : Type} (o : Obj V) k v :
  o !! k = Some v -> <[k := v]> o = o.
Proof.
  destruct o as [l]. unfold lookup, insert, Obj_lookup, Obj_insert. simpl.
  intros H. f_equal. induction l as [|kv l IH]; simpl in *; [discriminate|].
  destruct (decide (fst kv = k)) as [E|E].
  - rewrite bool_decide_eq_true_2 in H by exact E. simpl in H.
    injection H as <-. rewrite <- E. destruct kv; reflexivity.
  - rewrite bool_decide_eq_false_2 in H by exact E. rewrite (IH H).
    reflexivity.
Qed.

(** A value that an object holds is among its entries. *)
Lemma obj_lookup_entries {V : Type} (o : Obj V) k v :
  o !! k = Some v -> (k, v) ∈ entries o.
Proof.
  destruct o as [l]. unfold lookup, Obj_lookup. simpl.
  induction l as [|kv l IH]; simpl; [discriminate|].
  destruct (decide (fst kv = k)) as [E|E].
  - rewrite bool_decide_eq_true_2 by exact E. simpl. intros [= <-].
    rewrite <- E. destruct kv. left.
  - rewrite bool_decide_eq_false_2 by exact E. intros H. right. exact (IH H).
Qed.

(** ** How [run] composes *)

Lemma with_backend_same w : with_backend (backend w) w = w.
Proof. destruct w; reflexivity. Qed.

Lemma run_bind (fails : Oracle) {A B : Type} (p : Prog A) (f : A -> Prog B) s w :
  run fails (bind p f) s w =
    match out (run fails p s w) with
    | Ok a =>
        then_ (run fails p s w)
          (run fails (f a) (st (run fails p s w)) (world (run fails p s w)))
    | Err m =>
        mkOutcome (Err m) (st (run fails p s w)) (world (run fails p s w))
          (calls (run fails p s w))
    end.
Proof.
  revert s w.
  induction p as [a|m|g k IH|k IH|R r k IH|c k IH|name ls k IH|R' B' ps k IH]; intros s w;
    simpl.
  - destruct (run fails (f a) s w); reflexivity.
  - reflexivity.
  - apply IH.
  - apply IH.
  - rewrite IH. simpl.
    destruct (out (run fails (k _) s _)); reflexivity.
  - apply IH.
  - apply IH.
  - rewrite IH. simpl.
    destruct (run fails (k _) s _) as [[a'|m'] s1 w1 c1]; unfold then_; simpl;
      rewrite ?app_assoc; reflexivity.
Qed.

Lemma mbind_bind {A B : Type} (p : Prog A) (f : A -> Prog B) :
  (p ≫= f) = bind p f.
Proof. reflexivity. Qed.

Lemma run_try_catch (fails : Oracle) {A : Type} (p : Prog A) (h : string -> Prog A) s w :
  run fails (try_catch p h) s w =
    match out (run fails p s w) with
    | Ok a => run fails p s w
    | Err m =>
        then_ (run fails p s w)
          (run fails (h m) (st (run fails p s w)) (world (run fails p s w)))
    end.
Proof.
  revert s w.
  induction p as [a|m|g k IH|k IH|R r k IH|c k IH|name ls k IH|R' B' ps k IH]; intros s w;
    simpl.
  - reflexivity.
  - destruct (run fails (h m) s w); reflexivity.
  - apply IH.
  - apply IH.
  - rewrite IH. simpl.
    destruct (out (run fails (k _) s _)); reflexivity.
  - apply IH.
  - apply IH.
  - rewrite IH. simpl.
    destruct (run fails (k _) s _) as [[a'|m'] s1 w1 c1]; unfold then_; simpl;
      rewrite ?app_assoc; reflexivity.
Qed.

Lemma run_try_finally (fails : Oracle) {A : Type} (p : Prog A) (q : Prog unit) s w :
  run fails (try_finally p q) s w =
    let o := run fails p s w in
    let o' := run fails q (st o) (world o) in
    match out o' with
    | Ok _ => mkOutcome (out o) (st o') (world o') (calls o ++ calls o')%list
    | Err m => mkOutcome (Err m) (st o') (world o') (calls o ++ calls o')%list
    end.
Proof.
  revert s w.
  induction p as [a|m|g k IH|k IH|R r k IH|c k IH|name ls k IH|R' B' ps k IH]; intros s w;
    simpl.
  - rewrite run_bind. destruct (run fails q s w) as [[] ? ? ?];
      unfold then_; simpl; rewrite ?app_nil_r; reflexivity.
  - rewrite run_bind. destruct (run fails q s w) as [[] ? ? ?];
      unfold then_; simpl; rewrite ?app_nil_r; reflexivity.
  - apply IH.
  - apply IH.
  - rewrite IH. simpl.
    destruct (out (run fails q _ _)); reflexivity.
  - apply IH.
  - apply IH.
  - rewrite IH. simpl.
    destruct (out (run fails q _ _)); simpl; rewrite ?app_assoc; reflexivity.
Qed.

(** ** Parking and running on *)

Lemma map_fst_open_slots {R B : Type} (ps : list (Promise R B)) :
  map fst (open_slots ps) = ps.
Proof. unfold open_slots. rewrite map_map. apply map_id. Qed.

(** A handler whose every request is answered at once runs as [run] says. *)
Lemma run_advance (fails : Oracle) (p : Prog unit) s w :
  (st (run fails p s w), world (run fails p s w))
  = match advance p s w with
    | (s', w', None) => (s', w')
    | (s', w', Some (Waiting r k)) =>
        let rb := serve fails r (backend w') in
        (st (run fails (k (fst rb)) s' (with_backend (snd rb) w')),
         world (run fails (k (fst rb)) s' (with_backend (snd rb) w')))
    | (s', w', Some (WaitingAll slots k)) =>
        let rb := serve_all fails (map fst slots) (backend w') in
        (st (run fails (k (join (fst rb))) s' (with_backend (snd rb) w')),
         world (run fails (k (join (fst rb))) s' (with_backend (snd rb) w')))
    end.
Proof.
  revert s w.
  induction p as [a|m|g k IH|k IH|R r k IH|c k IH|name ls k IH|R' B' ps k IH];
    intros s w; try (simpl; auto; fail).
  cbn [run advance]. destruct ps as [|p ps].
  - rewrite <- IH. simpl. rewrite with_backend_same. reflexivity.
  - rewrite map_fst_open_slots. reflexivity.
Qed.

(** Where a handler parks is where its first [await] is. *)
Lemma advance_before_await (p : Prog unit) s w :
  fst (advance p s w) = before_await p s w.
Proof.
  revert s w.
  induction p as [a|m|g k IH|k IH|R r k IH|c k IH|name ls k IH|R' B' ps k IH];
    intros s w; simpl; auto.
  destruct ps; [apply IH | reflexivity].
Qed.

(** ** Searching *)

Lemma trim_start_blank s : blank s = true -> trim_start s = "".
Proof.
  induction s as [|c s IH]; simpl; [reflexivity|].
  destruct (is_space c); simpl; [exact IH | discriminate].
Qed.

Lemma trim_end_empty s : trim_end s = "" -> blank s = true.
Proof.
  induction s as [|c s IH]; simpl; [reflexivity|].
  destruct (trim_end s); [|discriminate].
  destruct (is_space c); [intros _; simpl; auto | discriminate].
Qed.

Lemma trim_start_not_blank s : blank s = false -> blank (trim_start s) = false.
Proof.
  induction s as [|c s IH]; simpl; [discriminate|].
  destruct (is_space c) eqn:E; simpl; [exact IH|].
  intros _. rewrite E. reflexivity.
Qed.

(** [trim] yields the empty string exactly on the strings made of white
    space. *)
Lemma trim_empty_iff s : trim s = "" <-> blank s = true.
Proof.
  unfold trim. split.
  - intros H. apply trim_end_empty in H.
    destruct (blank s) eqn:E; [reflexivity|].
    apply trim_start_not_blank in E. congruence.
  - intros H. rewrite (trim_start_blank s H). reflexivity.
Qed.

(** C6. A search with an empty query, or one of white space only, empties
    the tab data, the tab counts and the photos, resets [hasSearched] and
    the site id, and sends no request: neither the handler nor the effects
    of the render that follows reach the backend, and the world is left as
    it was. *)
Theorem handleSearch_blank_query (fails : Oracle) cs s w :
  blank (searchQuery cs) = true ->
  let o := run fails (handleSearch cs) s w in
  tabData (st o) = ∅ /\ tabCounts (st o) = ∅ /\ photos (st o) = ∅
  /\ hasSearched (st o) = false /\ siteId (st o) = ""
  /\ calls o = [] /\ world o = w
  /\ calls (run fails (effects (st o)) (st o) (world o)) = [].
Proof.
  intros Hq. apply trim_empty_iff in Hq.
  unfold handleSearch. rewrite Hq. simpl. repeat split.
Qed.

Lemma handleSearch_blank_query_witness :
  let cs := setSearchQuery (const_ "  ") initial_state in
  let o := run reliable (handleSearch cs) cs (initial_world (mkBackend ∅ [] ∅ [] [] [] [] 0 false)) in
  blank (searchQuery cs) = true /\ tabData (st o) = ∅ /\ calls o = [].
Proof.
  split; [reflexivity|].
  pose proof (handleSearch_blank_query reliable
                (setSearchQuery (const_ "  ") initial_state)
                (setSearchQuery (const_ "  ") initial_state)
                (initial_world (mkBackend ∅ [] ∅ [] [] [] [] 0 false)) eq_refl) as H.
  simpl in H. destruct H as (H1 & _ & _ & _ & _ & H6 & _). split; assumption.
Defined.

(** ** Adding a row *)

(** C10. [handleAddNewRow] sends an insert exactly when the site id, the
    equipment type, the product name and the status are all non-empty.
    Otherwise it sets an error message and sends nothing.  When it inserts,
    the insert is its first request; an empty serial or tag goes out as
    ["NA"], an empty product number or remarks as null; and unless the
    insert is answered with an error the table gains the row with these
    values. *)
Theorem handleAddNewRow_validation (fails : Oracle) cs today s w :
  let o := run fails (handleAddNewRow cs today) s w in
  let p := new_row_payload cs today in
  let table := TAB_TABLE_MAP (activeTab cs) in
  existsb is_insert (calls o) = required_present cs
  /\ (if required_present cs then
        (exists rest, calls o = Sent (InsertAsset table p) :: rest)
        /\ match fails _ (InsertAsset table p) with
           | None =>
               assets (backend (world o)) !! table =
                 Some (default [] (assets (backend w) !! table)
                         ++ [inserted_row (backend w) p])%list
           | Some m =>
               backend (world o) = backend w
               /\ error (st o) = Some ("Failed to add new row: " ++ m)
           end
      else calls o = [] /\ world o = w /\ is_Some (error (st o)))
  /\ i_serial p = (if decide (nr_serial (newRow cs) = "") then "NA"
                   else nr_serial (newRow cs))
  /\ i_tag p = (if decide (nr_tag (newRow cs) = "") then "NA"
                else nr_tag (newRow cs))
  /\ i_product_number p = (if decide (nr_product_number (newRow cs) = "")
                           then None else Some (nr_product_number (newRow cs)))
  /\ i_remarks p = (if decide (nr_remarks (newRow cs) = "") then None
                    else Some (nr_remarks (newRow cs)))
  /\ serial (inserted_row (backend w) p) = Some (i_serial p)
  /\ tag (inserted_row (backend w) p) = Some (i_tag p)
  /\ product_number (inserted_row (backend w) p) = i_product_number p
  /\ remarks (inserted_row (backend w) p) = i_remarks p.
Proof.
  intros o p table.
  assert (Hor : forall x d, or_else x d = if decide (x = "") then d else x).
  { intros [|c x] d; reflexivity. }
  assert (Hnull : forall x, orNull x = if decide (x = "") then None else Some x).
  { intros [|c x]; reflexivity. }
  split; [|split]; [| |simpl; rewrite !Hor, !Hnull; repeat split].
  - subst o. unfold handleAddNewRow, required_present.
    destruct (truthy (siteId cs)); simpl; [|reflexivity].
    destruct (truthy (nr_equipment_type (newRow cs))); simpl; [|reflexivity].
    destruct (truthy (nr_product_name (newRow cs))); simpl; [|reflexivity].
    destruct (truthy (nr_status (newRow cs))); simpl; reflexivity.
  - subst o. unfold handleAddNewRow, required_present.
    destruct (truthy (siteId cs)); simpl; [|eauto].
    destruct (truthy (nr_equipment_type (newRow cs))); simpl; [|eauto].
    destruct (truthy (nr_product_name (newRow cs))); simpl; [|eauto].
    destruct (truthy (nr_status (newRow cs))); simpl; [|eauto].
    split; [eexists; reflexivity|].
    fold table. fold p.
    destruct (fails _ (InsertAsset table p)) as [m|] eqn:E; simpl.
    + split; reflexivity.
    + destruct (fails _ (SelectAssets table (siteId cs))); simpl;
        apply lookup_insert_eq.
Qed.

(** ** Saving a row *)

Lemma on_row_eq rowId g r : id (base r) = rowId -> on_row rowId g r = g r.
Proof. intros H. unfold on_row. rewrite decide_True by exact H. reflexivity. Qed.



Lemma map_tab_lookup_ne tab f td k :
  k <> tab_name tab -> map_tab tab f td !! k = td !! k.
Proof. intros H. unfold map_tab. apply obj_lookup_insert_ne. congruence. Qed.

Lemma map_tab_map_tab tab f g td :
  map_tab tab g (map_tab tab f td) = map_tab tab (fun r => g (f r)) td.
Proof.
  unfold map_tab. rewrite obj_lookup_insert_eq, obj_insert_insert_eq.
  destruct (td !! tab_name tab); [rewrite map_map|]; reflexivity.
Qed.

Lemma map_tab_ext tab f g td :
  (forall r, f r = g r) -> map_tab tab f td = map_tab tab g td.
Proof.
  intros H. unfold map_tab. destruct (td !! tab_name tab); [|reflexivity].
  f_equal. apply map_ext. exact H.
Qed.

Lemma on_row_saving_twice rowId b r :
  on_row rowId (set_saving b) (on_row rowId (set_saving true) r)
  = on_row rowId (set_saving b) r.
Proof.
  unfold on_row. destruct (decide (id (base r) = rowId)) as [E|E]; simpl.
  - rewrite decide_True by exact E. reflexivity.
  - rewrite decide_False by exact E. reflexivity.
Qed.

Lemma on_row_saving_same rowId b r :
  same_but_saving r (on_row rowId (set_saving b) r).
Proof.
  unfold on_row, same_but_saving.
  destruct (decide (id (base r) = rowId)); simpl; repeat split;
    intros []; reflexivity.
Qed.

(** C9. When the update of a save is answered with an error, the backend
    is unchanged and the error message is set; in the tab, every row keeps
    its fetched fields, its drafts and its [_editing] flag, and the saved
    row has [_saving] reset to false, so that a row that was edited still
    has its save button enabled. *)
Theorem handleSaveRow_failure (fails : Oracle) tab row s w m rows :
  fails _ (UpdateAsset (TAB_TABLE_MAP tab) (id (base row)) (save_payload row))
    = Some m ->
  tabData s !! tab_name tab = Some rows ->
  let o := run fails (handleSaveRow tab row) s w in
  let rows' := map (on_row (id (base row)) (set_saving false)) rows in
  world o = w
  /\ error (st o) = Some ("Failed to save: " ++ m)
  /\ tabData (st o) = <[tab_name tab := rows']> (tabData s)
  /\ Forall2 same_but_saving rows rows'
  /\ (forall r, r ∈ rows -> id (base r) = id (base row) ->
        flag (_editing r) = true ->
        save_disabled (on_row (id (base row)) (set_saving false) r) = false).
Proof.
  intros Hfail Hrows o rows'. subst o.
  unfold handleSaveRow. simpl. rewrite Hfail. simpl.
  split; [destruct w; reflexivity|]. split; [reflexivity|].
  split; [|split].
  - rewrite map_tab_map_tab.
    rewrite (map_tab_ext _ _ _ _ (on_row_saving_twice (id (base row)) false)).
    unfold map_tab. rewrite Hrows. reflexivity.
  - subst rows'. clear Hrows. induction rows as [|r rows IH]; simpl;
      constructor; [apply on_row_saving_same | exact IH].
  - intros r _ Hid Hed. unfold on_row. rewrite decide_True by exact Hid.
    unfold save_disabled. simpl. rewrite Hed. reflexivity.
Qed.

Lemma handleSaveRow_failure_witness :
  error (st (run (fail_on is_update "timeout")
               (handleSaveRow Enclosure (toEditable row_r1))
               sample_state sample_world))
  = Some "Failed to save: timeout".
Proof.
  apply (handleSaveRow_failure (fail_on is_update "timeout") Enclosure
           (toEditable row_r1) sample_state sample_world "timeout"
           [toEditable row_r2; toEditable row_r1]);
    reflexivity.
Defined.

(** ** The dependent dropdowns *)

Lemma change_equipment_type_row rowId value r :
  id (base r) = rowId ->
  let r' := on_row rowId (change_equipment_type value) r in
  _equipment_type r' = value /\ _product_name r' = ""
  /\ _product_number r' = "" /\ _editing r' = Some true.
Proof.
  intros H. unfold on_row. rewrite decide_True by exact H.
  simpl. repeat split.
Qed.

(** C4 (amended). Changing the equipment type of a row writes, before any
    request of the handler is answered, the new equipment type and empty
    product-name and product-number drafts into that row and marks it
    edited; the tab keeps these rows to the end of the handler.  The cached
    option lists are not cleared: [equipmentTypes] and [productNames] are
    the same at that moment as before the change, and the product names
    offered for the row are those cached for the new equipment type (none
    if there are none cached). *)
Theorem handleEquipmentTypeChange_clears cs tab rowId value s w rows :
  tabData s !! tab_name tab = Some rows ->
  let s' := fst (before_await (handleEquipmentTypeChange cs tab rowId value) s w) in
  tabData s' !! tab_name tab
    = Some (map (on_row rowId (change_equipment_type value)) rows)
  /\ (forall r, r ∈ rows -> id (base r) = rowId ->
        let r' := on_row rowId (change_equipment_type value) r in
        _equipment_type r' = value /\ _product_name r' = ""
        /\ _product_number r' = "" /\ _editing r' = Some true)
  /\ productNames s' = productNames s
  /\ equipmentTypes s' = equipmentTypes s
  /\ (forall r, id (base r) = rowId ->
        product_name_options s' tab (on_row rowId (change_equipment_type value) r)
        = default [] (productNames s !! (tab_name tab ++ ":" ++ value)))
  /\ (forall fails : Oracle,
        tabData (st (run fails (handleEquipmentTypeChange cs tab rowId value) s w))
        = tabData s').
Proof.
  intros Hrows s'. subst s'. unfold handleEquipmentTypeChange.
  assert (Hcache : productNames
                     (fst (before_await
                             (upd (setLoadingDropdowns (const_ (Some (rowId ++ "-product"))));;
                              upd (setTabData (map_tab tab (on_row rowId (change_equipment_type value))));;
                              (if truthy value
                               then fetchProductNames cs (tab_name tab) value;; Ret tt
                               else Ret tt);;
                              upd (setLoadingDropdowns (const_ None))) s w))
                   = productNames s).
  { simpl. destruct (truthy value); [unfold fetchProductNames|]; simpl;
      [destruct (productNames cs !! _); simpl|]; reflexivity. }
  split; [|split; [|split; [|split; [|split]]]].
  - simpl. destruct (truthy value); [unfold fetchProductNames|]; simpl;
      [destruct (productNames cs !! _); simpl|];
      unfold map_tab; rewrite Hrows; apply obj_lookup_insert_eq.
  - intros r _ Hid. apply change_equipment_type_row. exact Hid.
  - exact Hcache.
  - simpl. destruct (truthy value); [unfold fetchProductNames|]; simpl;
      [destruct (productNames cs !! _); simpl|]; reflexivity.
  - intros r Hid. unfold product_name_options. rewrite Hcache.
    rewrite on_row_eq by exact Hid. reflexivity.
  - intros fails. simpl.
    destruct (truthy value); [unfold fetchProductNames|]; simpl;
      [destruct (productNames cs !! _); simpl|]; try reflexivity.
    destruct (fails _ _); reflexivity.
Qed.

Lemma handleEquipmentTypeChange_clears_witness :
  let s' := fst (before_await
                   (handleEquipmentTypeChange sample_state Enclosure "r1" "Rack")
                   sample_state sample_world) in
  tabData s' !! "Enclosure"
  = Some [toEditable row_r2;
          mkEditableRow row_r1 (Some true) None "Rack" "" "" "" "T9" "OK" ""].
Proof.
  exact (proj1 (handleEquipmentTypeChange_clears sample_state Enclosure "r1"
                  "Rack" sample_state sample_world
                  [toEditable row_r2; toEditable row_r1] eq_refl)).
Defined.

(** C4 as stated fails: the product names cached for the previous selection
    are still in the cache when the request for the new ones is in flight,
    and at the end of the handler. *)
Lemma handleEquipmentTypeChange_keeps_cache :
  let p := handleEquipmentTypeChange sample_state Enclosure "r1" "Rack" in
  productNames (fst (before_await p sample_state sample_world))
    !! "Enclosure:Cabinet" = Some ["X1"]
  /\ productNames (st (run reliable p sample_state sample_world))
       !! "Enclosure:Cabinet" = Some ["X1"].
Proof. split; vm_compute; reflexivity. Qed.

Lemma orNull_tab_name tab : orNull (tab_name tab) = Some (tab_name tab).
Proof. destruct tab; reflexivity. Qed.

Lemma set_product_name_keeps_number rowId value r :
  _product_number
    (on_row rowId (fun row => set_editing true (set_draft F_product_name value row)) r)
  = _product_number r.
Proof. unfold on_row. destruct (decide _); reflexivity. Qed.

(** [handleProductNameChange] never touches the error message: a failed
    catalog lookup is logged, not shown. *)
Lemma handleProductNameChange_error (fails : Oracle) tab rowId value
    equipmentType s w :
  error (st (run fails (handleProductNameChange tab rowId value equipmentType) s w))
  = error s.
Proof.
  unfold handleProductNameChange, fetchProductNumber.
  destruct (truthy value); simpl; [|reflexivity].
  destruct (fails _ (SelectProductNumber value _ _)); simpl.
  - destruct (fails _ (SelectProductNumber value None None)); simpl;
      [reflexivity|].
    destruct (first_product_number _); reflexivity.
  - destruct (first_product_number _); reflexivity.
Qed.

(** C5 (amended). For a chosen product name, the auto-fill first asks the
    catalog with the category filter and, for a non-empty equipment type,
    the equipment-type filter; when that request is answered with an error
    it asks once more without filters.  When this one fails too, the
    product-number draft of every row is what it was before (not emptied),
    and nothing outside the page changes.  In every case the handler ends
    with the loading marker of the dropdowns cleared, so that no field stays
    disabled. *)
Theorem handleProductNameChange_lookup (fails : Oracle) tab rowId value
    equipmentType s w rows :
  truthy value = true ->
  tabData s !! tab_name tab = Some rows ->
  let filtered :=
    SelectProductNumber value (Some (tab_name tab)) (orNull equipmentType) in
  let unfiltered := SelectProductNumber value None None in
  let named :=
    on_row rowId (fun row => set_editing true (set_draft F_product_name value row)) in
  let o := run fails (handleProductNameChange tab rowId value equipmentType) s w in
  loadingDropdowns (st o) = None
  /\ match fails _ filtered with
     | None => calls o = [Sent filtered]
     | Some _ =>
         calls o = [Sent filtered; Sent unfiltered]
         /\ match fails _ unfiltered with
            | None => True
            | Some _ =>
                tabData (st o) !! tab_name tab = Some (map named rows)
                /\ Forall2 (fun r r' => _product_number r' = _product_number r)
                     rows (map named rows)
                /\ world o = w
            end
     end.
Proof.
  intros Hvalue Hrows filtered unfiltered named o. subst o.
  unfold handleProductNameChange, fetchProductNumber.
  rewrite Hvalue, orNull_tab_name. simpl. fold filtered.
  destruct (fails _ filtered) as [m1|]; simpl.
  - fold unfiltered. destruct (fails _ unfiltered) as [m2|]; simpl.
    + split; [reflexivity|]. split; [reflexivity|].
      split; [|split].
      * unfold map_tab. rewrite Hrows. apply obj_lookup_insert_eq.
      * clear Hrows. induction rows as [|r rows IH]; simpl; constructor;
          [apply set_product_name_keeps_number | exact IH].
      * destruct w; reflexivity.
    + destruct (first_product_number _); simpl; auto.
  - destruct (first_product_number _); simpl; auto.
Qed.

Lemma handleProductNameChange_lookup_witness :
  calls (run (fail_on is_catalog_lookup "no such column")
           (handleProductNameChange Enclosure "r1" "X2" "Cabinet")
           sample_state sample_world)
  = [Sent (SelectProductNumber "X2" (Some "Enclosure") (Some "Cabinet"));
     Sent (SelectProductNumber "X2" None None)].
Proof.
  exact (proj1 (proj2
    (handleProductNameChange_lookup (fail_on is_catalog_lookup "no such column")
       Enclosure "r1" "X2" "Cabinet" sample_state sample_world
       [toEditable row_r2; toEditable row_r1] eq_refl eq_refl))).
Defined.

(** C5 as stated fails: with both catalog requests failing, the row that
    had the product number 123 still has it (the field is not left empty),
    and no message is set. *)
Lemma handleProductNameChange_failure_keeps_number :
  let o := run (fail_on is_catalog_lookup "no such column")
             (handleProductNameChange Enclosure "r1" "X2" "Cabinet")
             sample_state sample_world in
  map _product_number (default [] (tabData (st o) !! "Enclosure")) = [""; "123"]
  /\ map _product_name (default [] (tabData (st o) !! "Enclosure")) = ["Y2"; "X2"]
  /\ error (st o) = None.
Proof. vm_compute. repeat split. Qed.

(** ** Edit, then save *)





















(** ** Loading photos and subscribing *)

Lemma serve_sign_backend (fails : Oracle) path expiry b :
  snd (serve fails (CreateSignedUrl path expiry) b) = b.
Proof.
  simpl. destruct (fails _ _); [reflexivity|].
  destruct (bucket b !! path); reflexivity.
Qed.

Lemma serve_all_sign (fails : Oracle) data b :
  serve_all fails (map sign_photo data) b
  = (map (fun p => Ok (sign fails b p)) data, b).
Proof.
  induction data as [|p data IH]; [reflexivity|].
  cbn -[serve]. rewrite serve_sign_backend, IH.
  cbn -[serve]. f_equal. f_equal. unfold sign.
  destruct (fst (serve fails _ b)); reflexivity.
Qed.

Lemma join_oks {A : Type} (l : list A) : join (map Ok l) = Ok l.
Proof. induction l as [|a l IH]; simpl; [|rewrite IH]; reflexivity. Qed.

Lemma run_sign_all (fails : Oracle) data s w :
  run fails (promise_all (map sign_photo data)) s w
  = mkOutcome (Ok (map (sign fails (backend w)) data)) s w
      (map (fun p => Sent (CreateSignedUrl (storage_path p) 3600)) data).
Proof.
  unfold promise_all. cbn [run]. rewrite serve_all_sign. cbn [fst snd].
  rewrite <- (map_map (sign fails (backend w)) Ok), join_oks.
  cbn [run out st world calls]. rewrite with_backend_same, app_nil_r, map_map.
  reflexivity.
Qed.

Lemma setPhotos_same s : setPhotos (const_ (photos s)) s = s.
Proof. destruct s; reflexivity. Qed.

(** [loadPhotosForAssets] never throws, changes nothing outside the page,
    and touches only the photo map. *)
Lemma run_loadPhotosForAssets (fails : Oracle) a s w :
  let o := run fails (loadPhotosForAssets a) s w in
  out o = Ok tt /\ world o = w
  /\ st o = setPhotos (const_ (loaded_photos fails (backend w) a (photos s))) s.
Proof.
  destruct a as [|x a]; [repeat split|].
  unfold loadPhotosForAssets, loaded_photos.
  set (tables := uniq [] (map fst (x :: a))).
  set (ids := map snd (x :: a)).
  cbn -[promise_all tables ids].
  destruct (fails _ (SelectPhotos tables ids)); cbn -[promise_all tables ids].
  - rewrite with_backend_same, setPhotos_same. repeat split.
  - rewrite mbind_bind.
    rewrite run_bind, with_backend_same, run_sign_all. repeat split.
Qed.

Lemma run_setupRealtimeSubscriptions (fails : Oracle) q a s w :
  run fails (setupRealtimeSubscriptions q a) s w
  = mkOutcome (Ok tt) (fst (resubscribed q a s w)) (snd (resubscribed q a s w)) [].
Proof.
  unfold setupRealtimeSubscriptions, resubscribed, dropped. cbn.
  destruct (channelRef s); destruct (photoChannelRef s) eqn:E; cbn;
    rewrite E; reflexivity.
Qed.

(** ** What a search shows *)

#[global] Instance date_desc_total : Total date_desc.
Proof.
  intros r1 r2. unfold date_desc, date_geb.
  destruct (date_text r1), (date_text r2); auto using String.leb_total.
Qed.

Lemma select_assets_perm b table site :
  select_assets b table site
  ≡ₚ filter (fun r => site_id r = site) (default [] (assets b !! table)).
Proof. unfold select_assets. apply merge_sort_Permutation. Qed.

Lemma select_assets_sorted b table site :
  Sorted date_desc (select_assets b table site).
Proof. unfold select_assets. apply (Sorted_merge_sort _). Qed.

Lemma select_assets_elem b table site r :
  r ∈ select_assets b table site
  <-> r ∈ default [] (assets b !! table) /\ site_id r = site.
Proof.
  rewrite select_assets_perm, list_elem_of_filter. tauto.
Qed.

Lemma run_fetch_tabs (fails : Oracle) q s w :
  (forall tab, fails _ (SelectAssets (TAB_TABLE_MAP tab) q) = None) ->
  run fails (promise_all (map (fetch_tab q) TABS)) s w
  = mkOutcome (Ok (search_results (backend w) q)) s w
      (map (fun tab => Sent (SelectAssets (TAB_TABLE_MAP tab) q)) TABS).
Proof.
  intros H.
  pose proof (H Enclosure) as H1. pose proof (H RAN_Active) as H2.
  pose proof (H RAN_Passive) as H3. pose proof (H MW_Active) as H4.
  pose proof (H MW_Passive) as H5. cbn in H1, H2, H3, H4, H5.
  cbn. rewrite H1. cbn. rewrite H2. cbn. rewrite H3. cbn. rewrite H4. cbn.
  rewrite H5. cbn. destruct w; reflexivity.
Qed.

Lemma run_handleSearch (fails : Oracle) cs s w :
  truthy (trim (searchQuery cs)) = true ->
  (forall tab,
      fails _ (SelectAssets (TAB_TABLE_MAP tab) (trim (searchQuery cs))) = None) ->
  let o := run fails (handleSearch cs) s w in
  out o = Ok tt
  /\ (st o, world o) = searched fails (trim (searchQuery cs)) s w.
Proof.
  intros Hq H. unfold handleSearch. rewrite Hq.
  set (q := trim (searchQuery cs)) in *.
  cbn [negb mbind Prog_bind bind upd run].
  rewrite run_try_finally, run_try_catch, mbind_bind, run_bind.
  rewrite (run_fetch_tabs fails q _ _ H).
  cbn [out st world calls then_ mbind Prog_bind bind upd run].
  rewrite mbind_bind, run_bind.
  match goal with
  | |- context [run fails (loadPhotosForAssets ?a) ?s0 ?w0] =>
      destruct (run_loadPhotosForAssets fails a s0 w0) as (Ho & Hw & Hs);
      destruct (run fails (loadPhotosForAssets a) s0 w0) as [o1 s1 w1 c1]
  end.
  cbn [out st world calls] in *. subst o1 w1 s1.
  rewrite run_setupRealtimeSubscriptions.
  cbn [out st world calls then_ run]. split; reflexivity.
Qed.

Lemma ascii_compare_lt_trans x y z :
  Ascii.compare x y = Lt -> Ascii.compare y z = Lt -> Ascii.compare x z = Lt.
Proof. unfold Ascii.compare. rewrite !N.compare_lt_iff. lia. Qed.

Lemma string_leb_trans a b c :
  String.leb a b = true -> String.leb b c = true -> String.leb a c = true.
Proof.
  unfold String.leb. revert b c.
  induction a as [|x a IH]; intros [|y b] [|z c]; simpl;
    try reflexivity; try discriminate.
  destruct (Ascii.compare x y) eqn:Exy; try discriminate.
  - apply Ascii.compare_eq_iff in Exy. subst y.
    destruct (Ascii.compare x z); try discriminate; [apply IH | reflexivity].
  - intros _. destruct (Ascii.compare y z) eqn:Eyz; try discriminate.
    + apply Ascii.compare_eq_iff in Eyz. subst z. rewrite Exy. reflexivity.
    + rewrite (ascii_compare_lt_trans _ _ _ Exy Eyz). reflexivity.
Qed.

#[global] Instance date_desc_trans : Transitive date_desc.
Proof.
  intros r1 r2 r3. unfold date_desc, date_geb.
  destruct (date_text r1), (date_text r2), (date_text r3);
    try reflexivity; try discriminate.
  intros H1 H2. exact (string_leb_trans _ _ _ H2 H1).
Qed.

Lemma newTabData_lookup b q tab :
  newTabData (search_results b q) !! tab_name tab
  = Some (map toEditable (select_assets b (TAB_TABLE_MAP tab) q)).
Proof.
  unfold newTabData, search_results. destruct tab; reflexivity.
Qed.

Lemma newTabCounts_lookup b q tab :
  newTabCounts (search_results b q) !! tab_name tab
  = Some (length (select_assets b (TAB_TABLE_MAP tab) q)).
Proof.
  unfold newTabCounts, search_results. cbn.
  destruct tab; cbn;
    repeat (rewrite lookup_insert_ne by discriminate);
    apply lookup_insert_eq.
Qed.

Lemma base_toEditable l : map base (map toEditable l) = l.
Proof. rewrite map_map. apply map_id. Qed.

(** C2. A search for a non-empty site identifier whose five queries are
    answered fills every tab with the rows fetched for it: these are the
    rows of the tab's table whose [site_id] is the searched identifier (the
    same rows, as many times), in the order of the query's answer, which is
    descending on the text of the free-text date column (null first; text
    order, not the order of the calendar), and the tab's count is their
    number. *)
Theorem search_populates_tabs (fails : Oracle) cs s w :
  let q := trim (searchQuery cs) in
  truthy q = true ->
  (forall tab, fails _ (SelectAssets (TAB_TABLE_MAP tab) q) = None) ->
  let o := run fails (handleSearch cs) s w in
  siteId (st o) = q
  /\ forall tab,
       let fetched_rows := select_assets (backend w) (TAB_TABLE_MAP tab) q in
       let shown := default [] (tabData (st o) !! tab_name tab) in
       tabData (st o) !! tab_name tab = Some (map toEditable fetched_rows)
       /\ map base shown = fetched_rows
       /\ map base shown
          ≡ₚ filter (fun r => site_id r = q)
               (default [] (assets (backend w) !! TAB_TABLE_MAP tab))
       /\ StronglySorted date_desc (map base shown)
       /\ tabCounts (st o) !! tab_name tab = Some (length shown).
Proof.
  intros q Hq H o.
  destruct (run_handleSearch fails cs s w Hq H) as [_ Hrun].
  fold q in Hrun. subst o.
  assert (Hs : st (run fails (handleSearch cs) s w) = fst (searched fails q s w))
    by (rewrite <- Hrun; reflexivity).
  rewrite Hs. split; [reflexivity|].
  intros tab fetched_rows shown.
  assert (Htab : tabData (fst (searched fails q s w)) !! tab_name tab
                 = Some (map toEditable fetched_rows))
    by apply newTabData_lookup.
  subst shown. rewrite Htab. cbn [from_option Datatypes.id]. rewrite base_toEditable.
  split; [reflexivity|]. split; [reflexivity|].
  split; [apply select_assets_perm|].
  split; [apply Sorted_StronglySorted; [apply _ | apply select_assets_sorted]|].
  rewrite length_map. apply newTabCounts_lookup.
Qed.

Lemma search_populates_tabs_witness :
  let cs := setSearchQuery (const_ " A ") initial_state in
  let o := run reliable (handleSearch cs) cs sample_world in
  tabData (st o) !! "Enclosure" = Some [toEditable row_r2; toEditable row_r1].
Proof.
  exact (proj1 (proj2
    (search_populates_tabs reliable (setSearchQuery (const_ " A ") initial_state)
       (setSearchQuery (const_ " A ") initial_state) sample_world
       eq_refl (fun _ => eq_refl)) Enclosure)).
Defined.

(** ** Uploading a photo *)

Lemma uniq_elem x seen l : x ∈ uniq seen l <-> x ∈ l /\ x ∉ seen.
Proof.
  revert seen. induction l as [|y l IH]; intros seen; simpl.
  - rewrite elem_of_nil. tauto.
  - destruct (bool_decide (y ∈ seen)) eqn:E.
    + apply bool_decide_eq_true in E. rewrite IH, elem_of_cons.
      split; [tauto|]. intros [[->|H] Hn]; [contradiction | tauto].
    + apply bool_decide_eq_false in E.
      rewrite !elem_of_cons, IH, elem_of_cons.
      destruct (decide (x = y)) as [->|Hne]; tauto.
Qed.

Lemma tab_of_name_tab_name tab : tab_of_name (tab_name tab) = Some tab.
Proof. destruct tab; reflexivity. Qed.

Lemma assets_of_tabData_elem td tab rows row :
  td !! tab_name tab = Some rows -> row ∈ rows ->
  (TAB_TABLE_MAP tab, id (base row)) ∈ assets_of_tabData td.
Proof.
  intros Htd Hrow. unfold assets_of_tabData.
  apply list_elem_of_In, in_flat_map. exists (tab_name tab, rows). split.
  - apply list_elem_of_In, obj_lookup_entries, Htd.
  - cbn [fst snd]. unfold table_of_key. rewrite tab_of_name_tab_name.
    apply in_map_iff. exists row. split; [reflexivity|].
    apply list_elem_of_In. exact Hrow.
Qed.

Lemma group_photos_snoc l x :
  group_photos (l ++ [x])
  = <[key_of x := (default [] (group_photos l !! key_of x) ++ [x])%list]>
      (group_photos l).
Proof. unfold group_photos. rewrite foldl_app. reflexivity. Qed.

(** The photo map holds, under each key, the photos with that key, in the
    order in which they were fetched. *)
Lemma group_photos_lookup l k :
  default [] (group_photos l !! k)
  = List.filter (fun ph => bool_decide (key_of ph = k)) l.
Proof.
  induction l as [|x l IH] using rev_ind; [reflexivity|].
  rewrite group_photos_snoc, List.filter_app. simpl.
  destruct (bool_decide (key_of x = k)) eqn:E.
  - apply bool_decide_eq_true in E. subst k.
    rewrite lookup_insert_eq. simpl. rewrite IH. reflexivity.
  - apply bool_decide_eq_false in E.
    rewrite lookup_insert_ne by exact E. rewrite IH, app_nil_r. reflexivity.
Qed.

Lemma existsb_filter {A : Type} (f : A -> bool) l :
  existsb f l = match List.filter f l with [] => false | _ => true end.
Proof.
  induction l as [|x l IH]; simpl; [reflexivity|].
  destruct (f x); simpl; [reflexivity | exact IH].
Qed.

Lemma existsb_conflicts b p :
  existsb (conflicts p) (asset_photos b)
  = match records_of_pair b (p_asset_id p) (p_photo_type p) with
    | [] => false
    | _ => true
    end.
Proof. apply existsb_filter. Qed.

(** What [handlePhotoUpload] leaves when storage took the file and the
    insert was sent: the record is added and the photos are reloaded, or
    the database rejected the insert and the message is shown. *)
Lemma run_handlePhotoUpload (fails : Oracle) cs file tab row photoType now s w :
  let table := TAB_TABLE_MAP tab in
  let path := storagePath (siteId cs) table (id (base row)) photoType file in
  let payload := photo_payload cs tab row photoType file now in
  let a := assets_of_tabData (tabData cs) in
  fails _ (StorageUpload path file) = None ->
  fails _ (InsertPhoto payload) = None ->
  let b1 := storage_upload (backend w) path file in
  let o := run fails (handlePhotoUpload cs (Some file) tab row photoType now) s w in
  match fst (insert_photo b1 payload) with
  | Ok _ =>
      backend (world o) = add_photo b1 payload
      /\ photos (st o) = loaded_photos fails (add_photo b1 payload) a (photos s)
      /\ error (st o) = error s
  | Err m =>
      backend (world o) = b1
      /\ photos (st o) = photos s
      /\ error (st o) = Some ("Failed to upload photo: " ++ m)
  end.
Proof.
  intros table path payload a Hup Hins b1 o. subst o.
  unfold handlePhotoUpload. fold table. fold path.
  cbn [mbind Prog_bind bind upd run].
  rewrite run_try_finally, run_try_catch.
  change (mkPhotoPayload (id (base row)) (Some table) photoType path None
            (Some now) (user cs)) with payload.
  fold a. clearbody a payload path.
  cbn -[loadPhotosForAssets serve].
  assert (H1 : serve fails (StorageUpload path file) (backend w)
               = (Ok tt, storage_upload (backend w) path file))
    by (cbn; rewrite Hup; reflexivity).
  rewrite H1. cbn -[loadPhotosForAssets serve].
  assert (H2 : serve fails (InsertPhoto payload) (storage_upload (backend w) path file)
               = insert_photo b1 payload)
    by (cbn -[insert_photo]; rewrite Hins; reflexivity).
  rewrite H2. fold b1. unfold insert_photo.
  destruct (photos_unique b1 && existsb (conflicts payload) (asset_photos b1));
    cbn -[loadPhotosForAssets serve].
  - repeat split.
  - match goal with
    | |- context [run fails (loadPhotosForAssets a) ?s0 ?w0] =>
        destruct (run_loadPhotosForAssets fails a s0 w0) as (Ho & Hw & Hs);
        destruct (run fails (loadPhotosForAssets a) s0 w0) as [o1 s1 w1 c1]
    end.
    cbn [out st world calls sent] in *. subst o1 w1 s1.
    cbn. repeat split.
Qed.

Lemma records_of_snoc b table assetId t p :
  asset_table p = Some table -> asset_id p = assetId -> photo_type p = t ->
  List.filter
    (fun p => bool_decide (asset_table p = Some table)
              && bool_decide (asset_id p = assetId)
              && PhotoType_eqb (photo_type p) t)
    (asset_photos b ++ [p])
  = (records_of b table assetId t ++ [p])%list.
Proof.
  intros H1 H2 H3. rewrite List.filter_app. simpl.
  rewrite !bool_decide_eq_true_2 by assumption.
  rewrite H3. destruct t; reflexivity.
Qed.

Lemma PhotoType_eqb_refl t : PhotoType_eqb t t = true.
Proof. destruct t; reflexivity. Qed.

(** An upsert leaves the records of its pair in their places and gives
    each the path and URL of the payload. *)
Lemma records_of_pair_overwrite p l :
  List.filter (conflicts p) (map (overwrite_photo p) l)
  = map (overwrite_photo p) (List.filter (conflicts p) l).
Proof.
  induction l as [|r l IH]; [reflexivity|]. cbn [map List.filter].
  assert (H : conflicts p (overwrite_photo p r) = conflicts p r).
  { unfold overwrite_photo. destruct (conflicts p r) eqn:E; [|exact E].
    exact E. }
  rewrite H. destruct (conflicts p r); cbn [map]; rewrite IH; reflexivity.
Qed.

(** What the drawer's [uploadPhoto] leaves when storage took the file and
    the upsert was sent. *)
Lemma run_uploadPhoto (fails : Oracle) asset_site assetId file photoType s w :
  let fileName := asset_site ++ "/" ++ assetId ++ "/"
                    ++ photo_type_name photoType ++ "." ++ fileExt file in
  let p := {| p_asset_id := assetId; p_asset_table := None;
              p_photo_type := photoType; p_storage_path := fileName;
              p_public_url := Some (getPublicUrl fileName);
              p_taken_at := None; p_taken_by := None |} in
  fails _ (StorageUpload fileName file) = None ->
  fails _ (UpsertPhoto p) = None ->
  let b1 := storage_upload (backend w) fileName file in
  let o := run fails (uploadPhoto asset_site assetId file photoType) s w in
  out o = fst (upsert_photo b1 p)
  /\ backend (world o) = snd (upsert_photo b1 p)
  /\ st o = s.
Proof.
  intros fileName p Hup Hins b1 o. subst o. unfold uploadPhoto.
  fold fileName. fold p. clearbody p fileName.
  cbn -[upsert_photo]. rewrite Hup. cbn -[upsert_photo]. rewrite Hins.
  fold b1. destruct (upsert_photo b1 p) as [[[]|m] b2]; repeat split.
Qed.

(** C3 (amended).  On the search page, with the row in a loaded tab and
    the requests answered, [handlePhotoUpload] stores the file at
    [{site}/{table}/{asset}/{type}/{file name}], replacing what was there.
    If [asset_photos] has no uniqueness constraint on the asset id and the
    photo type, or the asset has no photo of that type yet, one record is
    appended: no record is changed or removed, so an asset that had a photo
    of that type has one more, and the photo map of the page then holds
    every record of that asset, the earlier ones and the new one.  If the
    table has the constraint and the asset has a photo of that type, the
    insert is rejected: the records stay as they were, the photo map too,
    and the upload ends with an error message.  In the asset drawer
    [uploadPhoto] writes its record by upsert on the asset id and the photo
    type, which needs the constraint: without it the upsert is rejected and
    the records stay as they were; with it a first photo is inserted, an
    existing record keeps its id and takes the new path, and one record
    remains for the pair. *)
Theorem photo_upload_records (fails : Oracle) cs file tab row photoType
    now s w rows :
  tabData cs !! tab_name tab = Some rows ->
  row ∈ rows ->
  let table := TAB_TABLE_MAP tab in
  let assetId := id (base row) in
  let path := storagePath (siteId cs) table assetId photoType file in
  let payload := photo_payload cs tab row photoType file now in
  let a := assets_of_tabData (tabData cs) in
  fails _ (StorageUpload path file) = None ->
  fails _ (InsertPhoto payload) = None ->
  fails _ (SelectPhotos (uniq [] (map fst a)) (map snd a)) = None ->
  let b := backend w in
  let o := run fails (handlePhotoUpload cs (Some file) tab row photoType now) s w in
  let new := inserted_photo b payload in
  bucket (backend (world o)) !! path = Some file
  /\ (photos_unique b = false \/ records_of_pair b assetId photoType = [] ->
        asset_photos (backend (world o)) = (asset_photos b ++ [new])%list
        /\ records_of (backend (world o)) table assetId photoType
           = (records_of b table assetId photoType ++ [new])%list
        /\ storage_path new = path
        /\ (forall p, p ∈ asset_photos (backend (world o)) ->
              asset_table p = Some table -> asset_id p = assetId ->
              p ∈ map rec (getAssetPhotos (st o) table assetId)))
  /\ (photos_unique b = true ->
      records_of_pair b assetId photoType <> [] ->
        asset_photos (backend (world o)) = asset_photos b
        /\ photos (st o) = photos s
        /\ exists m, error (st o) = Some ("Failed to upload photo: " ++ m))
  /\ (forall asset_site file',
        let fileName := asset_site ++ "/" ++ assetId ++ "/"
                          ++ photo_type_name photoType ++ "." ++ fileExt file' in
        let p' := {| p_asset_id := assetId; p_asset_table := None;
                     p_photo_type := photoType; p_storage_path := fileName;
                     p_public_url := Some (getPublicUrl fileName);
                     p_taken_at := None; p_taken_by := None |} in
        fails _ (StorageUpload fileName file') = None ->
        fails _ (UpsertPhoto p') = None ->
        let o' := run fails (uploadPhoto asset_site assetId file' photoType) s w in
        let after := records_of_pair (backend (world o')) assetId photoType in
        bucket (backend (world o')) !! fileName = Some file'
        /\ if photos_unique b then
             out o' = Ok tt
             /\ after = match records_of_pair b assetId photoType with
                        | [] => [inserted_photo b p']
                        | olds => map (overwrite_photo p') olds
                        end
             /\ map photo_id (map (overwrite_photo p') (records_of_pair b assetId photoType))
                = map photo_id (records_of_pair b assetId photoType)
             /\ (forall r, r ∈ after -> storage_path r = fileName)
             /\ (photos_consistent b -> length after = 1)
           else
             (exists m, out o' = Err m)
             /\ asset_photos (backend (world o')) = asset_photos b).
Proof.
  intros Htab Hrow table assetId path payload a Hup Hins Hsel b o new.
  set (b1 := storage_upload (backend w) path file).
  assert (Hrun : match fst (insert_photo b1 payload) with
                 | Ok _ =>
                     backend (world o) = add_photo b1 payload
                     /\ photos (st o)
                        = loaded_photos fails (add_photo b1 payload) a (photos s)
                     /\ error (st o) = error s
                 | Err m =>
                     backend (world o) = b1
                     /\ photos (st o) = photos s
                     /\ error (st o) = Some ("Failed to upload photo: " ++ m)
                 end).
  { exact (run_handlePhotoUpload fails cs file tab row photoType now s w
             Hup Hins). }
  assert (Hex : existsb (conflicts payload) (asset_photos b1)
                = match records_of_pair b assetId photoType with
                  | [] => false
                  | _ => true
                  end).
  { apply (existsb_conflicts b payload). }
  unfold insert_photo in Hrun. rewrite Hex in Hrun.
  change (photos_unique b1) with (photos_unique b) in Hrun.
  split; [|split; [|split]].
  - destruct (photos_unique b && _) in Hrun; cbn [fst] in Hrun;
      destruct Hrun as (-> & _); simpl; apply obj_lookup_insert_eq || apply lookup_insert_eq.
  - intros Hcase.
    assert (Hno : photos_unique b
                  && match records_of_pair b assetId photoType with
                     | [] => false
                     | _ => true
                     end = false).
    { destruct Hcase as [-> | ->]; [reflexivity | apply andb_false_r]. }
    rewrite Hno in Hrun. cbn [fst] in Hrun. destruct Hrun as (Hb & Hph & _).
    split; [rewrite Hb; reflexivity|].
    split; [unfold records_of at 1; rewrite Hb;
            apply (records_of_snoc b1); reflexivity|].
    split; [reflexivity|].
    intros p Hp Htable Hasset.
    unfold getAssetPhotos. rewrite Hph. rewrite Hb in Hp.
    set (b' := add_photo _ _) in *.
    pose proof (assets_of_tabData_elem _ _ _ _ Htab Hrow) as Hin.
    fold a table assetId in Hin.
    unfold loaded_photos. destruct a as [|x a'] eqn:Ea; [inversion Hin|].
    rewrite Hsel, group_photos_lookup.
    apply list_elem_of_In, in_map_iff.
    exists (sign fails b' p). split; [reflexivity|].
    apply filter_In. split.
    + apply in_map. unfold select_photos. apply filter_In. split.
      * apply list_elem_of_In. exact Hp.
      * unfold photo_selected. rewrite Htable.
        apply andb_true_intro. split; apply bool_decide_eq_true.
        -- apply uniq_elem. split; [|apply not_elem_of_nil].
           apply (list_elem_of_fmap_2 fst) in Hin. exact Hin.
        -- rewrite Hasset. apply (list_elem_of_fmap_2 snd) in Hin. exact Hin.
    + apply bool_decide_eq_true. unfold key_of. simpl.
      rewrite Htable, Hasset. reflexivity.
  - intros Hu Hsome. rewrite Hu in Hrun.
    destruct (records_of_pair b assetId photoType) eqn:E; [contradiction|].
    cbn [andb fst] in Hrun. destruct Hrun as (Hb & Hph & He).
    split; [rewrite Hb; reflexivity|]. split; [exact Hph|].
    eexists. exact He.
  - intros asset_site file' fileName p' Hup' Hins' o' after.
    set (b2 := storage_upload (backend w) fileName file').
    assert (Hrun' : out o' = fst (upsert_photo b2 p')
                    /\ backend (world o') = snd (upsert_photo b2 p')).
    { destruct (run_uploadPhoto fails asset_site assetId file' photoType s w
                  Hup' Hins') as (H1 & H2 & _).
      split; [exact H1 | exact H2]. }
    destruct Hrun' as [Hout Hback].
    assert (Hex' : existsb (conflicts p') (asset_photos b2)
                   = match records_of_pair b assetId photoType with
                     | [] => false
                     | _ => true
                     end).
    { apply (existsb_conflicts b p'). }
    unfold upsert_photo in Hout, Hback. rewrite Hex' in Hout, Hback.
    change (photos_unique b2) with (photos_unique b) in Hout, Hback.
    assert (Hbucket : forall l n,
               bucket (set_photos b2 l n) !! fileName = Some file').
    { intros l n. simpl. apply lookup_insert_eq. }
    subst after.
    destruct (photos_unique b) eqn:Hu.
    + destruct (records_of_pair b assetId photoType) as [|old olds] eqn:E;
        cbn [fst snd] in Hout, Hback; rewrite Hback.
      * split; [apply Hbucket|]. split; [exact Hout|].
        assert (Hafter : records_of_pair (add_photo b2 p') assetId photoType
                         = [inserted_photo b p']).
        { unfold records_of_pair, add_photo. cbn [asset_photos set_photos].
          rewrite List.filter_app.
          change (List.filter _ (asset_photos b2))
            with (records_of_pair b assetId photoType).
          rewrite E. cbn. rewrite bool_decide_eq_true_2 by reflexivity.
          rewrite PhotoType_eqb_refl. reflexivity. }
        rewrite Hafter.
        split; [reflexivity|]. split; [reflexivity|].
        split; [|reflexivity].
        intros r Hr. apply elem_of_cons in Hr as [->|Hr]; [reflexivity | inversion Hr].
      * split; [apply Hbucket|]. split; [exact Hout|].
        assert (Hafter : records_of_pair
                           (set_photos b2 (map (overwrite_photo p') (asset_photos b2))
                              (next_id b2)) assetId photoType
                         = map (overwrite_photo p') (old :: olds)).
        { unfold records_of_pair. cbn [asset_photos set_photos].
          rewrite <- E. apply (records_of_pair_overwrite p'). }
        rewrite Hafter.
        assert (Hall : forall r, r ∈ old :: olds -> conflicts p' r = true).
        { intros r Hr. rewrite <- E in Hr. unfold records_of_pair in Hr.
          apply list_elem_of_In, filter_In in Hr. apply Hr. }
        split; [reflexivity|]. split.
        { rewrite map_map. apply map_ext_in. intros r Hr.
          apply list_elem_of_In in Hr. unfold overwrite_photo.
          rewrite (Hall r Hr). reflexivity. }
        split.
        { intros r Hr. apply list_elem_of_fmap in Hr as (r0 & -> & Hr0).
          unfold overwrite_photo. rewrite (Hall r0 Hr0). reflexivity. }
        intros Hc. specialize (Hc Hu assetId photoType). rewrite E in Hc.
        rewrite length_map. destruct olds; [reflexivity|]. simpl in Hc. lia.
    + cbn [fst snd] in Hout, Hback. rewrite Hback.
      split; [simpl; apply lookup_insert_eq|].
      split; [eexists; exact Hout | reflexivity].
Qed.

Lemma photo_upload_records_witness :
  let o := run reliable
             (handlePhotoUpload sample_state (Some new_file) Enclosure
                (toEditable row_r1) serial_photo "2025-07-02T09:00:00.000Z")
             sample_state sample_world in
  map photo_id (records_of (backend (world o)) "enclosure_assets" "r1" serial_photo)
  = ["ph1"; "id-0"].
Proof.
  intros o.
  pose proof (photo_upload_records reliable sample_state new_file Enclosure
                (toEditable row_r1) serial_photo "2025-07-02T09:00:00.000Z"
                sample_state sample_world
                [toEditable row_r2; toEditable row_r1] eq_refl
                (list_elem_of_further _ _ _ (list_elem_of_here _ _))
                eq_refl eq_refl eq_refl) as (_ & H & _).
  destruct (H (or_introl eq_refl)) as (_ & H2 & _).
  exact (f_equal (map photo_id) H2).
Defined.

(** C3 as stated fails wherever the table has the constraint that the
    README declares and the drawer's upsert needs: asset r1 has a serial
    photo; the page's upload of another one is rejected by the database and
    the drawer's upload rewrites the record in place, so that one record
    remains for the pair in both cases, not two.  On a table without the
    constraint the drawer's upload is rejected, and again one record
    remains. *)
Lemma second_upload_leaves_one_record :
  let w := initial_world sample_backend_unique in
  let page := run reliable
                (handlePhotoUpload sample_state (Some new_file) Enclosure
                   (toEditable row_r1) serial_photo "2025-07-02T09:00:00.000Z")
                sample_state w in
  let drawer := run reliable (uploadPhoto "A" "r1" new_file serial_photo)
                  initial_state w in
  let drawer' := run reliable (uploadPhoto "A" "r1" new_file serial_photo)
                   initial_state sample_world in
  map photo_id (records_of_pair sample_backend_unique "r1" serial_photo) = ["ph1"]
  /\ map photo_id (records_of_pair (backend (world page)) "r1" serial_photo)
     = ["ph1"]
  /\ error (st page)
     = Some "Failed to upload photo: duplicate key value violates unique constraint asset_photos_asset_id_photo_type_key"
  /\ map photo_id (records_of_pair (backend (world drawer)) "r1" serial_photo)
     = ["ph1"]
  /\ map storage_path (records_of_pair (backend (world drawer)) "r1" serial_photo)
     = ["A/r1/serial.jpg"]
  /\ map photo_id (records_of_pair (backend (world drawer')) "r1" serial_photo)
     = ["ph1"]
  /\ map storage_path (records_of_pair (backend (world drawer')) "r1" serial_photo)
     = ["A/enclosure_assets/r1/serial/old.jpg"]
  /\ out drawer'
     = Err "there is no unique or exclusion constraint matching the ON CONFLICT specification".
Proof. vm_compute. repeat split. Qed.

Lemma length_filter_overwrite p f l :
  (forall r, f (overwrite_photo p r) = f r) ->
  length (List.filter f (map (overwrite_photo p) l)) = length (List.filter f l).
Proof.
  intros Hf. induction l as [|r l IH]; [reflexivity|]. cbn [map List.filter].
  rewrite Hf. destruct (f r); simpl; rewrite IH; reflexivity.
Qed.

Lemma add_photo_consistent b p :
  photos_consistent b ->
  (photos_unique b = true ->
   records_of_pair b (p_asset_id p) (p_photo_type p) = []) ->
  photos_consistent (add_photo b p).
Proof.
  intros Hc Hfree Hu assetId t. specialize (Hc Hu assetId t).
  specialize (Hfree Hu).
  unfold records_of_pair, add_photo in *. cbn [asset_photos set_photos].
  rewrite List.filter_app, length_app. cbn [List.filter inserted_photo asset_id photo_type].
  destruct (bool_decide (p_asset_id p = assetId)) eqn:E1; cbn [andb length];
    [|lia].
  destruct (PhotoType_eqb (p_photo_type p) t) eqn:E2; cbn [length]; [|lia].
  apply bool_decide_eq_true in E1. subst assetId.
  assert (Ht : p_photo_type p = t).
  { revert E2. destruct (p_photo_type p), t; simpl; congruence. }
  subst t. rewrite Hfree. simpl. lia.
Qed.

(** The backend keeps its word: no request makes a table with the
    constraint hold two records for an asset and a photo type. *)
Lemma serve_consistent (fails : Oracle) {R : Type} (r : Req R) b :
  photos_consistent b -> photos_consistent (snd (serve fails r b)).
Proof.
  intros Hc.
  destruct r; cbn -[insert_photo upsert_photo];
    destruct (fails _ _); cbn -[insert_photo upsert_photo];
    try exact Hc; try (destruct (bucket b !! path); exact Hc).
  - unfold insert_photo.
    destruct (photos_unique b && existsb (conflicts p) (asset_photos b)) eqn:E;
      cbn [snd]; [exact Hc|].
    apply add_photo_consistent; [exact Hc|]. intros Hu.
    rewrite Hu, existsb_conflicts in E. cbn [andb] in E.
    destruct (records_of_pair b _ _); [reflexivity | discriminate].
  - unfold upsert_photo. destruct (photos_unique b) eqn:Hu; [|exact Hc].
    destruct (existsb (conflicts p) (asset_photos b)) eqn:E; cbn [snd].
    + intros _ assetId t. specialize (Hc Hu assetId t).
      unfold records_of_pair in *. cbn [asset_photos set_photos].
      rewrite length_filter_overwrite; [exact Hc|].
      intros r. unfold overwrite_photo. destruct (conflicts p r); reflexivity.
    + apply add_photo_consistent; [exact Hc|]. intros _.
      rewrite existsb_conflicts in E.
      destruct (records_of_pair b _ _); [reflexivity | discriminate].
Qed.


(** ** Subscriptions *)

Lemma quiet_bind {A B : Type} (p : Prog A) (f : A -> Prog B) :
  quiet p -> (forall a, quiet (f a)) -> quiet (bind p f).
Proof.
  intros Hp Hf.
  induction p as [a|m|g k IH|k IH|R r k IH|c k IH|name ls k IH|R' B' ps k IH]; simpl in *;
    intuition auto.
Qed.

Lemma quiet_try_catch {A : Type} (p : Prog A) (h : string -> Prog A) :
  quiet p -> (forall m, quiet (h m)) -> quiet (try_catch p h).
Proof.
  intros Hp Hh.
  induction p as [a|m|g k IH|k IH|R r k IH|c k IH|name ls k IH|R' B' ps k IH]; simpl in *;
    intuition auto.
Qed.

Lemma quiet_try_finally {A : Type} (p : Prog A) (q : Prog unit) :
  quiet p -> quiet q -> quiet (try_finally p q).
Proof.
  intros Hp Hq.
  induction p as [a|m|g k IH|k IH|R r k IH|c k IH|name ls k IH|R' B' ps k IH]; simpl in *;
    try (apply quiet_bind; [exact Hq | intros; exact I]); intuition auto.
Qed.

Lemma quiet_settle {A : Type} (p : Prog A) : quiet p -> quiet (settle p).
Proof.
  intros Hp. unfold settle. apply quiet_try_catch; [|intros; exact I].
  apply quiet_bind; [exact Hp | intros; exact I].
Qed.

Lemma quiet_promise_all {R B : Type} (ps : list (Promise R B)) :
  quiet (promise_all ps).
Proof. intros [l|m]; exact I. Qed.

(** A quiet handler leaves the channels and the ref cells alone. *)
Lemma run_quiet (fails : Oracle) {A : Type} (p : Prog A) s w :
  quiet p ->
  let o := run fails p s w in
  active (world o) = active w /\ next_chan (world o) = next_chan w
  /\ channelRef (st o) = channelRef s
  /\ photoChannelRef (st o) = photoChannelRef s.
Proof.
  revert s w.
  induction p as [a|m|g k IH|k IH|R r k IH|c k IH|name ls k IH|R' B' ps k IH];
    intros s w Hp; simpl in *; try tauto.
  - destruct Hp as [Hg Hk]. destruct (Hg s) as [H1 H2].
    destruct (IH (g s) w Hk) as (? & ? & ? & ?). repeat split; congruence.
  - apply IH, Hp.
  - destruct (IH (fst (serve fails r (backend w))) s
                (with_backend (snd (serve fails r (backend w))) w)
                (Hp _)) as (? & ? & ? & ?).
    repeat split; assumption.
  - destruct (IH (join (fst (serve_all fails ps (backend w)))) s
                (with_backend (snd (serve_all fails ps (backend w))) w)
                (Hp _)) as (? & ? & ? & ?).
    repeat split; assumption.
Qed.

Ltac quiet_step :=
  match goal with
  | |- quiet (Ret _) => exact I
  | |- quiet (Throw _) => exact I
  | |- quiet (upd _) => split; [intros; split; reflexivity | exact I]
  | |- quiet (Upd _ _) => split; [intros; split; reflexivity |]
  | |- quiet (await _) => intros ?; exact I
  | |- quiet (await_or_throw _) => intros [?|?]; exact I
  | |- quiet (Await _ _) => intros ?
  | |- quiet (_ ≫= _) => apply quiet_bind
  | |- quiet (bind _ _) => apply quiet_bind
  | |- quiet (try_catch _ _) => apply quiet_try_catch
  | |- quiet (try_finally _ _) => apply quiet_try_finally
  | |- quiet (settle _) => apply quiet_settle
  | |- quiet (match ?x with _ => _ end) => destruct x
  | |- forall _, _ => intros
  end.

Lemma quiet_fetchProductNames cs cat equipmentType :
  quiet (fetchProductNames cs cat equipmentType).
Proof. unfold fetchProductNames. repeat quiet_step. Qed.

Lemma quiet_fetchProductNumber productName cat equipmentType :
  quiet (fetchProductNumber productName cat equipmentType).
Proof. unfold fetchProductNumber. repeat quiet_step. Qed.

Lemma quiet_loadPhotosForAssets a : quiet (loadPhotosForAssets a).
Proof.
  unfold loadPhotosForAssets. repeat quiet_step.
  apply quiet_promise_all.
Qed.

Lemma quiet_refreshTabData tab site : quiet (refreshTabData tab site).
Proof. unfold refreshTabData. repeat quiet_step. Qed.

Lemma quiet_handleFieldChange tab rowId field value :
  quiet (handleFieldChange tab rowId field value).
Proof. unfold handleFieldChange. repeat quiet_step. Qed.

Lemma quiet_handleEquipmentTypeChange cs tab rowId value :
  quiet (handleEquipmentTypeChange cs tab rowId value).
Proof.
  unfold handleEquipmentTypeChange. repeat quiet_step.
  apply quiet_fetchProductNames.
Qed.

Lemma quiet_handleProductNameChange tab rowId value equipmentType :
  quiet (handleProductNameChange tab rowId value equipmentType).
Proof.
  unfold handleProductNameChange. repeat quiet_step.
  apply quiet_fetchProductNumber.
Qed.

Lemma quiet_handleSaveRow tab row : quiet (handleSaveRow tab row).
Proof. unfold handleSaveRow. repeat quiet_step. Qed.

Lemma quiet_handlePhotoUpload cs file tab row photoType now :
  quiet (handlePhotoUpload cs file tab row photoType now).
Proof.
  unfold handlePhotoUpload. repeat quiet_step.
  apply quiet_loadPhotosForAssets.
Qed.

Lemma quiet_handleAddNewRow cs today : quiet (handleAddNewRow cs today).
Proof.
  unfold handleAddNewRow. repeat quiet_step.
  apply quiet_refreshTabData.
Qed.

Lemma quiet_effects cs : quiet (effects cs).
Proof.
  unfold effects, fetchEquipmentTypes, fetchTagStatuses. repeat quiet_step.
Qed.

Lemma quiet_resetNewRowForm : quiet resetNewRowForm.
Proof. unfold resetNewRowForm. repeat quiet_step. Qed.

Lemma quiet_handleNewRowEquipmentTypeChange cs value :
  quiet (handleNewRowEquipmentTypeChange cs value).
Proof.
  unfold handleNewRowEquipmentTypeChange. repeat quiet_step.
  apply quiet_fetchProductNames.
Qed.

Lemma quiet_handleNewRowProductNameChange cs value :
  quiet (handleNewRowProductNameChange cs value).
Proof.
  unfold handleNewRowProductNameChange. repeat quiet_step.
  apply quiet_fetchProductNumber.
Qed.

Lemma quiet_handleNewAssetPhotoUpload cs file photoType now :
  quiet (handleNewAssetPhotoUpload cs file photoType now).
Proof. unfold handleNewAssetPhotoUpload. repeat quiet_step. Qed.

Lemma quiet_handleDoneWithNewAsset cs : quiet (handleDoneWithNewAsset cs).
Proof.
  unfold handleDoneWithNewAsset. repeat quiet_step.
  - apply quiet_loadPhotosForAssets.
  - apply quiet_resetNewRowForm.
Qed.

Lemma quiet_handleCancelAddRow : quiet handleCancelAddRow.
Proof.
  unfold handleCancelAddRow. repeat quiet_step. apply quiet_resetNewRowForm.
Qed.

Lemma quiet_notify w n : quiet (notify w n).
Proof.
  unfold notify. induction (fired w n) as [|cb l IH]; simpl; [exact I|].
  apply quiet_bind; [|intros; exact IH].
  apply quiet_settle.
  destruct cb; [apply quiet_refreshTabData | apply quiet_loadPhotosForAssets].
Qed.

Lemma remove_channel_elem c x w :
  x ∈ active (remove_channel c w) <-> x ∈ active w /\ chan_id x <> chan_id c.
Proof.
  simpl. rewrite !list_elem_of_In, filter_In, negb_true_iff, Nat.eqb_neq.
  tauto.
Qed.

(** Dropping what the two ref cells hold closes every tracked channel. *)
Lemma dropped_all s w :
  channels_tracked s w ->
  let w' := dropped (photoChannelRef s) (dropped (channelRef s) w) in
  active w' = [] /\ next_chan w' = next_chan w /\ backend w' = backend w.
Proof.
  intros (_ & _ & Htr) w'. split.
  - apply elem_of_nil_inv. intros x Hx. subst w'.
    assert (Hin : x ∈ active w).
    { destruct (channelRef s), (photoChannelRef s); simpl dropped in Hx;
        repeat (apply remove_channel_elem in Hx; destruct Hx as [Hx _]);
        exact Hx. }
    destruct (Htr x Hin) as [[_ H]|[_ H]]; rewrite H in Hx.
    + destruct (photoChannelRef s); simpl dropped in Hx;
        repeat (apply remove_channel_elem in Hx; destruct Hx as [Hx ?]);
        congruence.
    + simpl dropped in Hx.
      apply remove_channel_elem in Hx. destruct Hx as [_ ?]. congruence.
  - subst w'. destruct (channelRef s), (photoChannelRef s); split; reflexivity.
Qed.

(** After [setupRealtimeSubscriptions], the open channels are the two new
    ones and the ref cells hold them. *)
Lemma resubscribed_channels q a s w :
  channels_tracked s w ->
  let sw := resubscribed q a s w in
  active (snd sw) = [asset_channel (next_chan w) q; photo_channel (next_chan w) a]
  /\ channelRef (fst sw) = Some (asset_channel (next_chan w) q)
  /\ photoChannelRef (fst sw) = Some (photo_channel (next_chan w) a)
  /\ next_chan (snd sw) = S (S (next_chan w))
  /\ backend (snd sw) = backend w.
Proof.
  intros H sw. destruct (dropped_all s w H) as (Ha & Hn & Hb).
  subst sw. unfold resubscribed, open_channel, asset_channel, photo_channel.
  cbn [fst snd active next_chan backend channelRef photoChannelRef
         set_channelRef set_photoChannelRef const_].
  rewrite Ha, Hn, Hb. repeat split.
Qed.

Lemma resubscribed_tracked q a s w :
  channels_tracked s w ->
  channels_tracked (fst (resubscribed q a s w)) (snd (resubscribed q a s w)).
Proof.
  intros H. destruct (resubscribed_channels q a s w H) as (Ha & Hc & Hp & Hn & _).
  unfold channels_tracked. rewrite Ha, Hc, Hp, Hn. split; [|split].
  - simpl. repeat constructor; rewrite ?elem_of_cons, ?elem_of_nil;
      rewrite ?list_elem_of_In; simpl; lia.
  - intros c Hin. rewrite !elem_of_cons, elem_of_nil in Hin.
    destruct Hin as [->|[->|[]]]; simpl; lia.
  - intros c Hin. rewrite !elem_of_cons, elem_of_nil in Hin.
    destruct Hin as [->|[->|[]]]; [left | right]; split; reflexivity.
Qed.

Lemma run_unmount (fails : Oracle) s w :
  run fails unmount s w
  = mkOutcome (Ok tt) s (dropped (photoChannelRef s) (dropped (channelRef s) w)) [].
Proof.
  unfold unmount, dropped. cbn.
  destruct (channelRef s); destruct (photoChannelRef s) eqn:E; cbn;
    rewrite ?E; reflexivity.
Qed.


Lemma tracked_same_refs s s' w :
  channelRef s' = channelRef s -> photoChannelRef s' = photoChannelRef s ->
  channels_tracked s w -> channels_tracked s' w.
Proof. intros H1 H2. unfold channels_tracked. rewrite H1, H2. auto. Qed.

Lemma tracked_with_backend b s w :
  channels_tracked s w -> channels_tracked s (with_backend b w).
Proof. intros H. exact H. Qed.

Lemma safe_mono {A : Type} (p : Prog A) (Q Q' : Result A -> State -> World -> Prop)
    s w :
  (forall r s' w', Q r s' w' -> Q' r s' w') -> safe p Q s w -> safe p Q' s w.
Proof.
  intros HQ. revert s w.
  induction p as [a|m|g k IH|k IH|R r k IH|c k IH|name ls k IH|R' B' ps k IH]; intros s w;
    simpl; auto.
  all: intros [Ht Hk]; split; [exact Ht|]; intros x s' w' H'; apply IH, Hk, H'.
Qed.

Lemma safe_bind {A B : Type} (p : Prog A) (f : A -> Prog B) Q s w :
  safe p (fun r s' w' =>
            match r with
            | Ok a => safe (f a) Q s' w'
            | Err m => Q (Err m) s' w'
            end) s w ->
  safe (bind p f) Q s w.
Proof.
  revert s w.
  induction p as [a|m|g k IH|k IH|R r k IH|c k IH|name ls k IH|R' B' ps k IH]; intros s w;
    simpl; auto.
  all: intros [Ht Hk]; split; [exact Ht|]; intros x s' w' H'; apply IH, Hk, H'.
Qed.

Lemma safe_try_catch {A : Type} (p : Prog A) (h : string -> Prog A) Q s w :
  safe p (fun r s' w' =>
            match r with
            | Ok a => Q (Ok a) s' w'
            | Err m => safe (h m) Q s' w'
            end) s w ->
  safe (try_catch p h) Q s w.
Proof.
  revert s w.
  induction p as [a|m|g k IH|k IH|R r k IH|c k IH|name ls k IH|R' B' ps k IH]; intros s w;
    simpl; auto.
  all: intros [Ht Hk]; split; [exact Ht|]; intros x s' w' H'; apply IH, Hk, H'.
Qed.

Lemma safe_try_finally {A : Type} (p : Prog A) (q : Prog unit) Q s w :
  safe p (fun r s' w' =>
            safe q (fun r' s'' w'' =>
                      match r' with
                      | Ok _ => Q r s'' w''
                      | Err m => Q (Err m) s'' w''
                      end) s' w') s w ->
  safe (try_finally p q) Q s w.
Proof.
  revert s w.
  induction p as [a|m|g k IH|k IH|R r k IH|c k IH|name ls k IH|R' B' ps k IH]; intros s w;
    simpl; auto.
  - intros H. apply safe_bind. exact H.
  - intros H. apply safe_bind. exact H.
  - intros [Ht Hk]. split; [exact Ht|]. intros x s' w' H'. apply IH, Hk, H'.
  - intros [Ht Hk]. split; [exact Ht|]. intros x s' w' H'. apply IH, Hk, H'.
Qed.

(** A quiet handler is safe. *)
Lemma safe_quiet {A : Type} (p : Prog A) Q s w :
  quiet p -> channels_tracked s w ->
  (forall r s' w', channels_tracked s' w' -> Q r s' w') ->
  safe p Q s w.
Proof.
  intros Hp Ht HQ. revert s w Ht.
  induction p as [a|m|g k IH|k IH|R r k IH|c k IH|name ls k IH|R' B' ps k IH]; intros s w Ht;
    simpl in *; auto; try contradiction.
  destruct Hp as [Hg Hk]. destruct (Hg s) as [H1 H2].
  apply IH; [exact Hk|]. exact (tracked_same_refs s (g s) w H1 H2 Ht).
Qed.

Lemma safe_setup q a Q s w :
  Q (Ok tt) (fst (resubscribed q a s w)) (snd (resubscribed q a s w)) ->
  safe (setupRealtimeSubscriptions q a) Q s w.
Proof.
  unfold setupRealtimeSubscriptions, resubscribed, dropped. cbn.
  destruct (channelRef s); destruct (photoChannelRef s) eqn:E; cbn;
    rewrite ?E; auto.
Qed.

Lemma safe_unmount Q s w :
  Q (Ok tt) s (dropped (photoChannelRef s) (dropped (channelRef s) w)) ->
  safe unmount Q s w.
Proof.
  unfold unmount, dropped. cbn.
  destruct (channelRef s); destruct (photoChannelRef s) eqn:E; cbn;
    rewrite ?E; auto.
Qed.

Lemma safe_handler_quiet {A : Type} (p : Prog A) : quiet p -> safe_handler p.
Proof. intros Hp s w Ht. apply safe_quiet; auto. Qed.

Lemma safe_handler_bind {A B : Type} (p : Prog A) (f : A -> Prog B) :
  safe_handler p -> (forall a, safe_handler (f a)) -> safe_handler (bind p f).
Proof.
  intros Hp Hf s w Ht. apply safe_bind.
  apply (safe_mono p (fun _ s' w' => channels_tracked s' w')); [|apply Hp, Ht].
  intros [a|m] s' w' H'; [apply Hf, H' | exact H'].
Qed.

Lemma safe_handler_try_catch {A : Type} (p : Prog A) (h : string -> Prog A) :
  safe_handler p -> (forall m, safe_handler (h m)) -> safe_handler (try_catch p h).
Proof.
  intros Hp Hh s w Ht. apply safe_try_catch.
  apply (safe_mono p (fun _ s' w' => channels_tracked s' w')); [|apply Hp, Ht].
  intros [a|m] s' w' H'; [exact H' | apply Hh, H'].
Qed.

Lemma safe_handler_try_finally {A : Type} (p : Prog A) (q : Prog unit) :
  safe_handler p -> safe_handler q -> safe_handler (try_finally p q).
Proof.
  intros Hp Hq s w Ht. apply safe_try_finally.
  apply (safe_mono p (fun _ s' w' => channels_tracked s' w')); [|apply Hp, Ht].
  intros r s' w' H'.
  apply (safe_mono q (fun _ s' w' => channels_tracked s' w')); [|apply Hq, H'].
  intros [a|m] s'' w'' H''; exact H''.
Qed.

Lemma safe_handler_setup q a : safe_handler (setupRealtimeSubscriptions q a).
Proof. intros s w Ht. apply safe_setup, resubscribed_tracked, Ht. Qed.

Lemma safe_handler_unmount : safe_handler unmount.
Proof.
  intros s w Ht. apply safe_unmount.
  destruct (dropped_all s w Ht) as (Ha & _ & _).
  unfold channels_tracked. rewrite Ha. split; [constructor|].
  split; intros c Hc; inversion Hc.
Qed.

Ltac safe_step :=
  match goal with
  | |- safe_handler (setupRealtimeSubscriptions _ _) => apply safe_handler_setup
  | |- safe_handler (loadPhotosForAssets _) =>
      apply safe_handler_quiet, quiet_loadPhotosForAssets
  | |- safe_handler (upd _) => apply safe_handler_quiet; quiet_step
  | |- safe_handler (promise_all _) => apply safe_handler_quiet
  | |- safe_handler (_ ≫= _) => apply safe_handler_bind
  | |- safe_handler (try_catch _ _) => apply safe_handler_try_catch
  | |- safe_handler (try_finally _ _) => apply safe_handler_try_finally
  | |- forall _, _ => intros
  end.

Lemma safe_handler_handleSearch cs : safe_handler (handleSearch cs).
Proof.
  unfold handleSearch. destruct (negb (truthy (trim (searchQuery cs)))).
  - apply safe_handler_quiet. repeat quiet_step.
  - repeat safe_step.
    apply quiet_promise_all.
Qed.

(** Every handler of the page is safe. *)
Lemma safe_handler_action a cs w0 : safe_handler (handler a cs w0).
Proof.
  destruct a; cbn [handler];
    first [ apply safe_handler_handleSearch
          | apply safe_handler_unmount
          | apply safe_handler_quiet;
            first [ quiet_step
                  | apply quiet_effects
                  | apply quiet_handleFieldChange
                  | apply quiet_handleEquipmentTypeChange
                  | apply quiet_handleProductNameChange
                  | apply quiet_handleSaveRow
                  | apply quiet_handlePhotoUpload
                  | apply quiet_handleNewRowEquipmentTypeChange
                  | apply quiet_handleNewRowProductNameChange
                  | apply quiet_handleAddNewRow
                  | apply quiet_handleNewAssetPhotoUpload
                  | apply quiet_handleDoneWithNewAsset
                  | apply quiet_handleCancelAddRow
                  | apply quiet_notify ] ].
Qed.

(** Safety carries over to the run to the end. *)
Lemma safe_run (fails : Oracle) {A : Type} (p : Prog A) Q s w :
  safe p Q s w ->
  Q (out (run fails p s w)) (st (run fails p s w)) (world (run fails p s w)).
Proof.
  revert s w.
  induction p as [a|m|g k IH|k IH|R r k IH|c k IH|name ls k IH|R' B' ps k IH]; intros s w;
    simpl; auto.
  all: intros [Ht Hk]; apply IH, Hk, tracked_with_backend, Ht.
Qed.

Lemma step_tracked (fails : Oracle) a sw :
  channels_tracked (fst sw) (snd sw) ->
  channels_tracked (fst (step fails a sw)) (snd (step fails a sw)).
Proof.
  intros H. unfold step. cbn [fst snd].
  apply (safe_run fails (handler a (fst sw) (snd sw))
           (fun _ s' w' => channels_tracked s' w')).
  apply safe_handler_action, H.
Qed.

Lemma steps_tracked (fails : Oracle) l sw :
  channels_tracked (fst sw) (snd sw) ->
  channels_tracked (fst (steps fails l sw)) (snd (steps fails l sw)).
Proof.
  revert sw. induction l as [|a l IH]; intros sw H; [exact H|].
  unfold steps in *. simpl. apply IH, step_tracked, H.
Qed.

(** Where a safe handler parks, the channels are tracked and the parked
    handler is safe. *)
Lemma advance_safe (p : Prog unit) s w :
  safe p (fun _ s' w' => channels_tracked s' w') s w ->
  channels_tracked (fst (fst (advance p s w))) (snd (fst (advance p s w)))
  /\ Forall task_safe (option_list (snd (advance p s w))).
Proof.
  revert s w.
  induction p as [a|m|g k IH|k IH|R r k IH|c k IH|name ls k IH|R' B' ps k IH];
    intros s w; simpl; auto.
  - intros [Ht Hk]. split; [exact Ht|]. repeat constructor. exact Hk.
  - intros [Ht Hk]. destruct ps as [|p ps].
    + apply IH, Hk, Ht.
    + split; [exact Ht|]. repeat constructor. exact Hk.
Qed.

(** With handlers in flight, in any order of actions and answers, the
    channels stay tracked and every parked handler stays safe. *)
Lemma answer_tracked (fails : Oracle) i j c :
  channels_tracked (page c) (env c) -> Forall task_safe (pending c) ->
  channels_tracked (page (answer fails i j c)) (env (answer fails i j c))
  /\ Forall task_safe (pending (answer fails i j c)).
Proof.
  intros Ht Hp. unfold answer.
  destruct (pending c !! i) as [[R r k|R B slots k]|] eqn:E; [| |split; assumption].
  - destruct j; [|split; assumption].
    assert (Hk : task_safe (Waiting r k)).
    { apply (Forall_lookup_1 _ _ _ _ Hp E). }
    destruct (advance_safe (k (fst (serve fails r (backend (env c)))))
                (page c) (with_backend (snd (serve fails r (backend (env c)))) (env c)))
      as [H1 H2]; [apply Hk, tracked_with_backend, Ht|].
    split; [exact H1|]. apply Forall_app. split; [|exact H2].
    apply Forall_delete, Hp.
  - assert (Hk : task_safe (WaitingAll slots k)).
    { apply (Forall_lookup_1 _ _ _ _ Hp E). }
    destruct (nth_open j slots) as [n|]; [|split; assumption].
    destruct (slots !! n) as [[p v0]|]; [|split; assumption].
    set (rb := serve fails (fst p) (backend (env c))).
    destruct (snd p (fst rb)) as [v|m].
    + destruct (all_values _) as [vs|].
      * destruct (advance_safe (k (Ok vs)) (page c)
                    (with_backend (snd rb) (env c)))
          as [H1 H2]; [apply Hk, tracked_with_backend, Ht|].
        split; [exact H1|]. apply Forall_app. split; [|exact H2].
        apply Forall_delete, Hp.
      * simpl. split; [apply tracked_with_backend, Ht|].
        apply Forall_insert; [exact Hp | exact Hk].
    + destruct (advance_safe (k (Err m)) (page c)
                  (with_backend (snd rb) (env c)))
        as [H1 H2]; [apply Hk, tracked_with_backend, Ht|].
      split; [exact H1|]. apply Forall_app. split; [|exact H2].
      apply Forall_delete, Hp.
Qed.

Lemma fire_tracked (fails : Oracle) e c :
  channels_tracked (page c) (env c) -> Forall task_safe (pending c) ->
  channels_tracked (page (fire fails e c)) (env (fire fails e c))
  /\ Forall task_safe (pending (fire fails e c)).
Proof.
  intros Ht Hp. destruct e as [a|i|i j]; simpl.
  - destruct (advance_safe (handler a (page c) (env c)) (page c) (env c))
      as [H1 H2]; [apply safe_handler_action, Ht|].
    split; [exact H1|]. apply Forall_app. split; assumption.
  - apply answer_tracked; assumption.
  - apply answer_tracked; assumption.
Qed.

Lemma play_tracked (fails : Oracle) es c :
  channels_tracked (page c) (env c) -> Forall task_safe (pending c) ->
  channels_tracked (page (play fails es c)) (env (play fails es c)).
Proof.
  revert c. induction es as [|e es IH]; intros c Ht Hp; [exact Ht|].
  unfold play in *. simpl.
  destruct (fire_tracked fails e c Ht Hp) as [H1 H2]. apply IH; assumption.
Qed.

Lemma initial_tracked b : channels_tracked initial_state (initial_world b).
Proof.
  split; [constructor|]. split; intros c Hc; inversion Hc.
Qed.

Lemma tracked_one_of_a_kind s w name (ref : State -> option Channel) :
  (forall c, c ∈ active w -> chan_name c = name -> ref s = Some c) ->
  NoDup (map chan_id (active w)) ->
  length (open_channels name w) <= 1.
Proof.
  intros Href Hnd. unfold open_channels.
  apply NoDup_fmap_1 in Hnd.
  apply (NoDup_filter (fun c => chan_name c = name)) in Hnd.
  assert (Hall : forall x, x ∈ filter (fun c => chan_name c = name) (active w) ->
                           ref s = Some x).
  { intros x Hx. apply list_elem_of_filter in Hx. destruct Hx as [Hk Hin].
    apply Href; assumption. }
  destruct (filter (fun c => chan_name c = name) (active w)) as [|x [|y l]];
    simpl; try lia.
  exfalso. apply NoDup_cons in Hnd. destruct Hnd as [Hx _]. apply Hx.
  assert (Some x = Some y) as [= ->]; [|left].
  rewrite <- (Hall x), <- (Hall y); [reflexivity| |]; repeat constructor.
Qed.

Lemma until_subscribe_setup q a s w :
  until_subscribe (setupRealtimeSubscriptions q a) s w
  = dropped (photoChannelRef s) (dropped (channelRef s) w).
Proof.
  unfold setupRealtimeSubscriptions, dropped. cbn.
  destruct (channelRef s); destruct (photoChannelRef s) eqn:E; cbn;
    rewrite ?E; reflexivity.
Qed.

(** [setupRealtimeSubscriptions] awaits nothing: it runs in one piece. *)
Lemma setup_is_synchronous (fails : Oracle) q a s w :
  before_await (setupRealtimeSubscriptions q a) s w
  = (st (run fails (setupRealtimeSubscriptions q a) s w),
     world (run fails (setupRealtimeSubscriptions q a) s w)).
Proof.
  unfold setupRealtimeSubscriptions. cbn.
  destruct (channelRef s); destruct (photoChannelRef s) eqn:E; cbn;
    rewrite ?E; reflexivity.
Qed.

(** Within one mount of the page, however its handlers are interleaved (any
    sequence of actions and of answers to the requests in flight, in any
    order), at most one channel named [asset-changes] and at most one named
    [photo-changes] are open, and no other channel is.  When
    [setupRealtimeSubscriptions] then opens its first channel no channel is
    open any more (the prior two were removed first), and afterwards exactly
    its two new channels are open; the cleanup of the mount effect, at the
    moment it runs, leaves no channel open. *)
Lemma channels_of_one_mount (fails : Oracle) b (es : list Event) :
  let c := play fails es (initial_config b) in
  let s := page c in
  let w := env c in
  length (open_channels "asset-changes" w) <= 1
  /\ length (open_channels "photo-changes" w) <= 1
  /\ (forall c, c ∈ active w ->
        chan_name c = "asset-changes" \/ chan_name c = "photo-changes")
  /\ (forall q a,
        let o := run fails (setupRealtimeSubscriptions q a) s w in
        active (until_subscribe (setupRealtimeSubscriptions q a) s w) = []
        /\ active (world o)
           = [asset_channel (next_chan w) q; photo_channel (next_chan w) a])
  /\ active (world (run fails unmount s w)) = [].
Proof.
  intros c s w.
  assert (H : channels_tracked s w).
  { apply (play_tracked fails es (initial_config b)).
    - apply initial_tracked.
    - constructor. }
  pose proof H as (Hnd & _ & Htr).
  split; [|split; [|split; [|split]]].
  - apply (tracked_one_of_a_kind s w _ channelRef); [|exact Hnd].
    intros x Hx Hn. destruct (Htr x Hx) as [[_ ?]|[Hn' _]]; [assumption|].
    rewrite Hn in Hn'. discriminate.
  - apply (tracked_one_of_a_kind s w _ photoChannelRef); [|exact Hnd].
    intros x Hx Hn. destruct (Htr x Hx) as [[Hn' _]|[_ ?]]; [|assumption].
    rewrite Hn in Hn'. discriminate.
  - intros x Hx. destruct (Htr x Hx) as [[? _]|[? _]]; auto.
  - intros q a o. split.
    + rewrite until_subscribe_setup. apply (dropped_all s w H).
    + subst o. rewrite run_setupRealtimeSubscriptions. simpl world.
      apply (resubscribed_channels q a s w H).
  - rewrite run_unmount. simpl world. apply (dropped_all s w H).
Qed.

(** ** Several mounts *)

(** The channels that a handler leaves open were open before or got their
    numbers from the client on the way. *)
Lemma advance_channels (p : Prog unit) s w :
  let w' := snd (fst (advance p s w)) in
  next_chan w <= next_chan w'
  /\ forall c, c ∈ active w' ->
       c ∈ active w \/ next_chan w <= chan_id c < next_chan w'.
Proof.
  revert s w.
  induction p as [a|m|g k IH|k IH|R r k IH|c0 k IH|name ls k IH|R' B' ps k IH];
    intros s w; cbn [advance fst snd]; try (split; [lia | auto]; fail).
  - apply IH.
  - apply IH.
  - destruct (IH s (remove_channel c0 w)) as [H1 H2]. cbn [next_chan remove_channel] in *.
    split; [exact H1|]. intros c Hc. destruct (H2 c Hc) as [Hin|Hr]; [left|right; exact Hr].
    cbn [active remove_channel] in Hin.
    apply list_elem_of_In, filter_In in Hin. apply list_elem_of_In, Hin.
  - destruct (IH (fst (open_channel name ls w)) s (snd (open_channel name ls w)))
      as [H1 H2].
    cbn [open_channel fst snd next_chan active] in *.
    split; [lia|]. intros c Hc. destruct (H2 c Hc) as [Hin|Hr]; [|right; lia].
    apply elem_of_app in Hin as [Hin|Hin]; [left; exact Hin|].
    apply elem_of_cons in Hin as [->|Hin]; [|inversion Hin].
    right. cbn [chan_id]. lia.
  - destruct ps as [|p ps]; [apply IH|]. cbn [fst snd]. split; [lia | auto].
Qed.

Lemma answer_channels (fails : Oracle) i j c :
  next_chan (env c) <= next_chan (env (answer fails i j c))
  /\ forall x, x ∈ active (env (answer fails i j c)) ->
       x ∈ active (env c)
       \/ next_chan (env c) <= chan_id x < next_chan (env (answer fails i j c)).
Proof.
  unfold answer.
  destruct (pending c !! i) as [[R r k|R B slots k]|]; [| |split; [lia | auto]].
  - destruct j; [|split; [lia | auto]].
    apply (advance_channels (k _) (page c) (with_backend _ (env c))).
  - destruct (nth_open j slots) as [n|]; [|split; [lia | auto]].
    destruct (slots !! n) as [[p v0]|]; [|split; [lia | auto]].
    destruct (snd p _) as [v|m].
    + destruct (all_values _) as [vs|].
      * apply (advance_channels (k _) (page c) (with_backend _ (env c))).
      * cbn [env active next_chan with_backend]. split; [lia | auto].
    + apply (advance_channels (k _) (page c) (with_backend _ (env c))).
Qed.

Lemma owned_all ids w :
  (forall c, c ∈ active w -> chan_id c ∈ ids) -> owned ids w = w.
Proof.
  intros H. destruct w as [b l n]. unfold owned. cbn [backend active next_chan] in *.
  f_equal. induction l as [|c l IH]; [reflexivity|]. cbn [List.filter].
  rewrite bool_decide_eq_true_2 by (apply H; left).
  f_equal. apply IH. intros x Hx. apply H. right. exact Hx.
Qed.

(** An instance that opened every open channel of the client is alone with
    it: its events go as [fire] says, and it stays so. *)
Lemma fire_at_alone (fails : Oracle) e inst w :
  (forall c, c ∈ active w -> chan_id c ∈ i_channels inst) ->
  let c := fire fails e {| page := i_page inst; env := w;
                           pending := i_pending inst |} in
  let iw := fire_at fails e inst w in
  i_page (fst iw) = page c /\ i_pending (fst iw) = pending c /\ snd iw = env c
  /\ forall x, x ∈ active (snd iw) -> chan_id x ∈ i_channels (fst iw).
Proof.
  intros Hown c iw.
  assert (Hch : next_chan w <= next_chan (env c)
                /\ forall x, x ∈ active (env c) ->
                     x ∈ active w \/ next_chan w <= chan_id x < next_chan (env c)).
  { subst c. destruct e as [a|j|j k]; cbn [fire].
    - apply (advance_channels (handler a (i_page inst) w) (i_page inst) w).
    - apply (answer_channels fails j 0
               {| page := i_page inst; env := w; pending := i_pending inst |}).
    - apply (answer_channels fails j k
               {| page := i_page inst; env := w; pending := i_pending inst |}). }
  assert (Hiw : iw = ({| i_page := page c; i_pending := pending c;
                         i_channels :=
                           (i_channels inst
                            ++ seq (next_chan w) (next_chan (env c) - next_chan w))%list |},
                      env c)).
  { subst iw c. unfold fire_at, fire.
    cbn [page env pending].
    destruct e as [a|j|j k]; [rewrite (owned_all _ _ Hown)|..]; reflexivity. }
  rewrite Hiw. cbn [fst snd i_page i_pending i_channels].
  split; [reflexivity|]. split; [reflexivity|]. split; [reflexivity|].
  destruct Hch as [Hle Hin]. intros x Hx. apply elem_of_app.
  destruct (Hin x Hx) as [Hold|Hnew]; [left; apply Hown, Hold|right].
  apply elem_of_seq. lia.
Qed.

(** A session with one mount is the page of [play]. *)
Lemma session_one_mount (fails : Oracle) b (es : list Event) :
  let x := session_play fails (Mount :: map (At 0) es) (initial_session b) in
  let c := play fails es (initial_config b) in
  client x = env c
  /\ map i_page (instances x) = [page c]
  /\ map i_pending (instances x) = [pending c].
Proof.
  intros x c. subst x c. unfold session_play, play. cbn [foldl session_fire].
  cbn [initial_session instances client app].
  assert (H : forall inst w,
             (forall c, c ∈ active w -> chan_id c ∈ i_channels inst) ->
             let x := foldl (fun x e => session_fire fails e x)
                        {| instances := [inst]; client := w |} (map (At 0) es) in
             let c := foldl (fun c e => fire fails e c)
                        {| page := i_page inst; env := w;
                           pending := i_pending inst |} es in
             client x = env c
             /\ map i_page (instances x) = [page c]
             /\ map i_pending (instances x) = [pending c]).
  { induction es as [|e es IH]; intros inst w Hown; [repeat split|].
    cbn [map foldl session_fire]. unfold session_at.
    cbn [instances client lookup list_lookup].
    destruct (fire_at_alone fails e inst w Hown) as (H1 & H2 & H3 & H4).
    destruct (fire_at fails e inst w) as [inst' w'] eqn:E.
    cbn [fst snd insert list_insert] in *.
    specialize (IH inst' w' H4). cbn zeta in IH.
    rewrite H1, H2, H3 in IH.
    destruct (fire fails e _) as [pg ev pd] eqn:E'.
    cbn [page env pending] in *. subst w'. exact IH. }
  apply (H (mkInstance initial_state [] []) (initial_world b)).
  intros c Hc. inversion Hc.
Qed.

(** C8 fails on this input.  The user searches site A and leaves the page
    while the search is under way.  The cleanup of the mount effect runs at
    once and finds both ref cells empty; the search is not cancelled and,
    when its requests are answered, [setupRealtimeSubscriptions] opens the
    two channels on the client, after the teardown, where nothing removes
    them any more.  The user comes back: the page is mounted again, with
    empty ref cells of its own, and a search for site A opens two more
    channels without removing the two that are open.  Now two channels
    named [asset-changes] and two named [photo-changes] are open, and one
    change of a row of site A starts two re-fetches of the enclosure tab,
    one by the listener of each mount. *)
Lemma channels_outlive_the_page :
  let one := play reliable
               [Act (TypeQuery "A"); Act Search; Act Unmount;
                Answer 0; Answer 0; Answer 0; Answer 0; Answer 0; Answer 0;
                Answer 0]
               (initial_config sample_backend) in
  let x1 := session_play reliable search_outlives_unmount
              (initial_session sample_backend) in
  let x2 := session_play reliable search_after_remount x1 in
  let x3 := session_play reliable [Change change_at_site_A] x2 in
  (pending one = []
   /\ map chan_name (active (env one)) = ["asset-changes"; "photo-changes"])
  /\ (map chan_name (active (client x1)) = ["asset-changes"; "photo-changes"]
      /\ map i_channels (instances x1) = [[0; 1]]
      /\ map i_pending (instances x1) = [[]])
  /\ (map chan_name (active (client x2))
      = ["asset-changes"; "photo-changes"; "asset-changes"; "photo-changes"]
      /\ length (open_channels "asset-changes" (client x2)) = 2
      /\ length (open_channels "photo-changes" (client x2)) = 2
      /\ map i_channels (instances x2) = [[0; 1]; [2; 3]]
      /\ map (fun i => channelRef (i_page i)) (instances x2)
         = map (fun c => Some c) (open_channels "asset-changes" (client x2)))
  /\ map (fun i => flat_map requests_of (i_pending i)) (instances x3)
     = [[Sent (SelectAssets "enclosure_assets" "A")];
        [Sent (SelectAssets "enclosure_assets" "A")]].
Proof. vm_compute. repeat split. Qed.

(** ** Change notifications *)

Lemma listens_to_asset_listener n q tab :
  n_site n <> Some q -> listens_to n (asset_listener q tab) = false.
Proof.
  intros H. unfold listens_to. simpl.
  rewrite (bool_decide_eq_false_2 _ H). apply andb_false_r.
Qed.

(** Each listener on an asset table is filtered to the site the
    subscriptions were opened for, and its re-fetch asks for the rows of that
    site only. *)
Lemma asset_listener_refetch (fails : Oracle) q tab s w :
  l_filter (asset_listener q tab) = Some q
  /\ calls (run fails (callback (l_callback (asset_listener q tab))) s w)
     = [Sent (SelectAssets (TAB_TABLE_MAP tab) q)].
Proof.
  split; [reflexivity|]. simpl.
  destruct (fails _ (SelectAssets (TAB_TABLE_MAP tab) q)); reflexivity.
Qed.

(** While the subscriptions opened for site [q] are the open ones, a change
    to a row of another site reaches no asset listener, and the tab data and
    the counts stay as they are. *)
Lemma notify_other_site (fails : Oracle) q a s w n :
  channels_tracked s w ->
  n_site n <> Some q ->
  let sw := resubscribed q a s w in
  let o := run fails (notify (snd sw) n) (fst sw) (snd sw) in
  tabData (st o) = tabData (fst sw) /\ tabCounts (st o) = tabCounts (fst sw).
Proof.
  intros H Hn sw o. subst o.
  destruct (resubscribed_channels q a s w H) as (Ha & _).
  fold sw in Ha. unfold notify, fired. rewrite Ha.
  cbn [flat_map asset_channel photo_channel chan_listeners map TABS List.filter].
  rewrite !(listens_to_asset_listener n q _ Hn).
  destruct (listens_to n (photo_listener a)); cbn [map app run_all callback l_callback photo_listener];
    [|split; reflexivity].
  rewrite mbind_bind, run_bind. unfold settle.
  rewrite run_try_catch, run_bind.
  destruct (run_loadPhotosForAssets fails a (fst sw) (snd sw)) as (Ho & Hw & Hs).
  destruct (run fails (loadPhotosForAssets a) (fst sw) (snd sw)) as [o1 s1 w1 c1].
  cbn [out st world calls] in *. subst o1 s1. split; reflexivity.
Qed.

(** C7 fails on these inputs.
    (1) The user searches site A and then site B.  While the search for B
    waits for its photo records, the tabs already hold the rows of B, but
    the open channels are still those of site A.  A change to a row of site
    A fires their listener, and its re-fetch puts the rows of A into the
    enclosure tab; the search for B then completes, and the page of site B
    shows two rows of site A.
    (2) The user searches site A, then clears the box and searches again,
    which empties the page but leaves the channels of site A open; a change
    to a row of site A then refills the enclosure tab and its count. *)
Lemma stale_subscription_alters_page :
  let c := play reliable search_A_then_B_in_flight (initial_config sample_backend) in
  let c' := play reliable change_arrives_during_search c in
  let sw := steps reliable [TypeQuery "A"; Search; TypeQuery ""; Search]
              (initial_state, sample_world) in
  let sw' := step reliable (Notify change_at_site_A) sw in
  (siteId (page c) = "B" /\ shown_sites (page c) Enclosure = ["B"]
   /\ tabCounts (page c) !! "Enclosure" = Some 1
   /\ siteId (page c') = "B" /\ loading (page c') = false
   /\ error (page c') = None /\ length (pending c') = 0
   /\ shown_sites (page c') Enclosure = ["A"; "A"]
   /\ tabCounts (page c') !! "Enclosure" = Some 2)
  /\ (siteId (fst sw) = "" /\ hasSearched (fst sw) = false
      /\ tabData (fst sw) !! "Enclosure" = None
      /\ tabCounts (fst sw) !! "Enclosure" = None
      /\ map chan_name (active (snd sw)) = ["asset-changes"; "photo-changes"]
      /\ tabData (fst sw') !! "Enclosure"
         = Some [toEditable row_r2; toEditable row_r1]
      /\ tabCounts (fst sw') !! "Enclosure" = Some 2).
Proof. vm_compute. repeat split. Qed.

